(** * The pashmak execution core ([src/core/program.py])

    A shallow embedding of the [Program] object: the operation stream, the
    section table, the call stack of variable snapshots, the mem register,
    the try-context and the dispatcher, followed by the properties stated
    about them.

    Python objects that the interpreter mutates in place and shares are kept
    in explicit stores and named by reference:
    - operation dicts ([op['index'] = ...] is an in-place write, and one
      operation dict of a function body may sit at several positions of the
      operation stream);
    - variable dicts ([dict(self.variables)] builds a new object);
    - the lists and dicts that are values of the language: a variable dict
      holds them by reference, so that a copy of the dict shares them.
    Python integers are [Z], Python dicts with string keys are [gmap string],
    Python lists are [list].  A Python string is a [string] with one
    character, of code point below 256, for each [ascii]. *)

From stdpp Require Import base option list gmap strings pretty.

Set Warnings "-register-all".
Local Open Scope Z_scope.

(** ** Python values and exceptions *)

(** Object references into the stores of the program state. *)
Abbreviation ref := nat (only parsing).

(** A value of the language.  Lists and dicts are objects that Python
    mutates in place and shares: a value holds them by reference. *)
Inductive value : Type :=
| VNone
| VBool (b : bool)
| VInt (n : Z)
| VStr (s : string)
| VList (r : ref)
| VDict (r : ref).

(** The list and dict objects that values refer to. *)
Inductive pyobj : Type :=
| OList (items : list value)
| ODict (entries : gmap string value).

(** A Python exception, by its class and the text that [str(ex)] gives.
    [ReferenceError] is not raised by Python: the model leaves by it where
    a reference is outside its store. *)
Inductive pyexc : Type :=
| KeyError (text : string)
| IndexError (text : string)
| ReferenceError
| Exception (text : string).

Definition squote_char : Ascii.ascii := Ascii.ascii_of_nat 39.
Definition dquote_char : Ascii.ascii := Ascii.ascii_of_nat 34.
Definition backslash : Ascii.ascii := Ascii.ascii_of_nat 92.
Definition squote : string := String squote_char EmptyString.
Definition dquote : string := String dquote_char EmptyString.
Definition tab : string := String (Ascii.ascii_of_nat 9) EmptyString.

(** [str(ex)] *)
Definition exc_str (ex : pyexc) : string :=
  match ex with
  | KeyError text => text
  | IndexError text => text
  | ReferenceError => "invalid reference"
  | Exception text => text
  end.

(** *** [repr] of a string

    [repr(s)] as CPython builds it: the text goes between single quotes,
    or between double quotes when it holds a single quote and no double
    quote; the quote in use and the backslash get a backslash; tab,
    newline and carriage return become [\t], [\n] and [\r]; any other
    character that is not printable becomes [\xhh]. *)

Definition hex_digit (n : N) : Ascii.ascii :=
  Ascii.ascii_of_N (if (n <? 10)%N then 48 + n else 87 + n)%N.

(** The printable characters below 256: the ASCII ones from the space
    to the tilde, and the Latin-1 ones from 161 on but the soft hyphen. *)
Definition py_printable (c : N) : bool :=
  ((32 <=? c) && (c <? 127) || (161 <=? c) && negb (c =? 173))%N.

Definition py_repr_char (quote ch : Ascii.ascii) : string :=
  let c := Ascii.N_of_ascii ch in
  if Ascii.eqb ch quote || Ascii.eqb ch backslash then
    String backslash (String ch EmptyString)
  else if (c =? 9)%N then String backslash "t"
  else if (c =? 10)%N then String backslash "n"
  else if (c =? 13)%N then String backslash "r"
  else if py_printable c then String ch EmptyString
  else
    String backslash
      (String (Ascii.ascii_of_nat 120)
         (String (hex_digit (c / 16))
            (String (hex_digit (c mod 16)) EmptyString))).

Fixpoint py_repr_body (quote : Ascii.ascii) (s : string) : string :=
  match s with
  | EmptyString => EmptyString
  | String ch rest => py_repr_char quote ch +:+ py_repr_body quote rest
  end.

Fixpoint holds (ch : Ascii.ascii) (s : string) : bool :=
  match s with
  | EmptyString => false
  | String ch' rest => Ascii.eqb ch ch' || holds ch rest
  end.

Definition py_repr (s : string) : string :=
  let quote :=
    if holds squote_char s && negb (holds dquote_char s) then dquote_char
    else squote_char in
  String quote (py_repr_body quote s +:+ String quote EmptyString).

(** [str(KeyError(key))] is [repr(key)]. *)
Definition key_error (key : string) : pyexc := KeyError (py_repr key).

(** The [IndexError] of [l[i]] and of [l[i] = x]. *)
Definition index_error : pyexc := IndexError "list index out of range".
Definition assignment_index_error : pyexc :=
  IndexError "list assignment index out of range".

(** ** Python list primitives on integer indexes *)

Section py_list.
Context {A : Type}.

(** [l.insert(i, x)]: a negative index counts from the end, and an index
    out of range is clamped to an end of the list. *)
Definition py_insert (i : Z) (x : A) (l : list A) : list A :=
  let n := Z.of_nat (length l) in
  let j := if bool_decide (i < 0) then Z.max 0 (i + n) else Z.min i n in
  take (Z.to_nat j) l ++ x :: drop (Z.to_nat j) l.

(** [l[i]]; [None] stands for [IndexError]. *)
Definition py_getitem (l : list A) (i : Z) : option A :=
  let j := if bool_decide (i < 0) then i + Z.of_nat (length l) else i in
  if bool_decide (0 ≤ j) then l !! Z.to_nat j else None.

(** [l[i] = x]; [None] stands for [IndexError]. *)
Definition py_setitem (l : list A) (i : Z) (x : A) : option (list A) :=
  let j := if bool_decide (i < 0) then i + Z.of_nat (length l) else i in
  if bool_decide (0 ≤ j < Z.of_nat (length l))
  then Some (<[Z.to_nat j := x]> l) else None.
End py_list.

(** ** Data model *)

(** A parsed operation.  [index] is absent until the operation is stamped
    by [set_operation_index]. *)
Record Operation : Type := mkOperation {
  command : string;
  args : list string;
  args_str : string;
  str : string;
  index : option Z;
}.

Definition with_index (i : option Z) (o : Operation) : Operation :=
  {| command := command o; args := args o; args_str := args_str o;
     str := str o; index := i |}.

(** A call frame: [{'entry_point': ..., 'vars': ...}]. *)
Record Frame : Type := mkFrame {
  entry_point : Z;
  vars : ref;
}.

(** The [Program] object.  The first four fields are the stores of shared
    objects (the operation dicts, the variable dicts, the lists and dicts
    that are values) and the console; the others are the attributes set in
    [__init__], in the order of the source.  [current_func] is the attribute
    that exists only while a function definition is open. *)
Record Program : Type := mkProgram {
  op_store : list Operation;
  dict_store : list (gmap string value);
  obj_store : list pyobj;
  console : list string;
  variables : ref;
  states : list Frame;
  functions : gmap string (list ref);
  operations : list ref;
  sections : gmap string Z;
  mem : value;
  is_test : bool;
  output : string;
  runtime_error : option (string * string * ref);
  is_in_try : option string;
  runed_functions : list Z;
  current_namespace : string;
  used_namespaces : list string;
  included_modules : list string;
  current_step : Z;
  main_filename : string;
  current_func : option string;
}.

(** Attribute assignment: [self.x = v]. *)

Definition put_op_store (v : list Operation) (st : Program) : Program :=
  {| op_store := v; dict_store := dict_store st;
     obj_store := obj_store st; console := console st;
     variables := variables st; states := states st;
     functions := functions st; operations := operations st;
     sections := sections st; mem := mem st; is_test := is_test st;
     output := output st; runtime_error := runtime_error st;
     is_in_try := is_in_try st; runed_functions := runed_functions st;
     current_namespace := current_namespace st;
     used_namespaces := used_namespaces st;
     included_modules := included_modules st;
     current_step := current_step st; main_filename := main_filename st;
     current_func := current_func st |}.

Definition put_dict_store (v : list (gmap string value)) (st : Program) : Program :=
  {| op_store := op_store st; dict_store := v;
     obj_store := obj_store st; console := console st;
     variables := variables st; states := states st;
     functions := functions st; operations := operations st;
     sections := sections st; mem := mem st; is_test := is_test st;
     output := output st; runtime_error := runtime_error st;
     is_in_try := is_in_try st; runed_functions := runed_functions st;
     current_namespace := current_namespace st;
     used_namespaces := used_namespaces st;
     included_modules := included_modules st;
     current_step := current_step st; main_filename := main_filename st;
     current_func := current_func st |}.

Definition put_obj_store (v : list pyobj) (st : Program) : Program :=
  {| op_store := op_store st; dict_store := dict_store st; obj_store := v;
     console := console st;
     variables := variables st; states := states st;
     functions := functions st; operations := operations st;
     sections := sections st; mem := mem st; is_test := is_test st;
     output := output st; runtime_error := runtime_error st;
     is_in_try := is_in_try st; runed_functions := runed_functions st;
     current_namespace := current_namespace st;
     used_namespaces := used_namespaces st;
     included_modules := included_modules st;
     current_step := current_step st; main_filename := main_filename st;
     current_func := current_func st |}.

Definition put_console (v : list string) (st : Program) : Program :=
  {| op_store := op_store st; dict_store := dict_store st;
     obj_store := obj_store st; console := v;
     variables := variables st; states := states st;
     functions := functions st; operations := operations st;
     sections := sections st; mem := mem st; is_test := is_test st;
     output := output st; runtime_error := runtime_error st;
     is_in_try := is_in_try st; runed_functions := runed_functions st;
     current_namespace := current_namespace st;
     used_namespaces := used_namespaces st;
     included_modules := included_modules st;
     current_step := current_step st; main_filename := main_filename st;
     current_func := current_func st |}.

Definition put_states (v : list Frame) (st : Program) : Program :=
  {| op_store := op_store st; dict_store := dict_store st;
     obj_store := obj_store st;
     console := console st; variables := variables st; states := v;
     functions := functions st; operations := operations st;
     sections := sections st; mem := mem st; is_test := is_test st;
     output := output st; runtime_error := runtime_error st;
     is_in_try := is_in_try st; runed_functions := runed_functions st;
     current_namespace := current_namespace st;
     used_namespaces := used_namespaces st;
     included_modules := included_modules st;
     current_step := current_step st; main_filename := main_filename st;
     current_func := current_func st |}.

Definition put_functions (v : gmap string (list ref)) (st : Program) : Program :=
  {| op_store := op_store st; dict_store := dict_store st;
     obj_store := obj_store st;
     console := console st; variables := variables st; states := states st;
     functions := v; operations := operations st; sections := sections st;
     mem := mem st; is_test := is_test st; output := output st;
     runtime_error := runtime_error st; is_in_try := is_in_try st;
     runed_functions := runed_functions st;
     current_namespace := current_namespace st;
     used_namespaces := used_namespaces st;
     included_modules := included_modules st;
     current_step := current_step st; main_filename := main_filename st;
     current_func := current_func st |}.

Definition put_operations (v : list ref) (st : Program) : Program :=
  {| op_store := op_store st; dict_store := dict_store st;
     obj_store := obj_store st;
     console := console st; variables := variables st; states := states st;
     functions := functions st; operations := v; sections := sections st;
     mem := mem st; is_test := is_test st; output := output st;
     runtime_error := runtime_error st; is_in_try := is_in_try st;
     runed_functions := runed_functions st;
     current_namespace := current_namespace st;
     used_namespaces := used_namespaces st;
     included_modules := included_modules st;
     current_step := current_step st; main_filename := main_filename st;
     current_func := current_func st |}.

Definition put_sections (v : gmap string Z) (st : Program) : Program :=
  {| op_store := op_store st; dict_store := dict_store st;
     obj_store := obj_store st;
     console := console st; variables := variables st; states := states st;
     functions := functions st; operations := operations st; sections := v;
     mem := mem st; is_test := is_test st; output := output st;
     runtime_error := runtime_error st; is_in_try := is_in_try st;
     runed_functions := runed_functions st;
     current_namespace := current_namespace st;
     used_namespaces := used_namespaces st;
     included_modules := included_modules st;
     current_step := current_step st; main_filename := main_filename st;
     current_func := current_func st |}.

Definition put_mem (v : value) (st : Program) : Program :=
  {| op_store := op_store st; dict_store := dict_store st;
     obj_store := obj_store st;
     console := console st; variables := variables st; states := states st;
     functions := functions st; operations := operations st;
     sections := sections st; mem := v; is_test := is_test st;
     output := output st; runtime_error := runtime_error st;
     is_in_try := is_in_try st; runed_functions := runed_functions st;
     current_namespace := current_namespace st;
     used_namespaces := used_namespaces st;
     included_modules := included_modules st;
     current_step := current_step st; main_filename := main_filename st;
     current_func := current_func st |}.

Definition put_runtime_error (v : option (string * string * ref)) (st : Program) : Program :=
  {| op_store := op_store st; dict_store := dict_store st;
     obj_store := obj_store st;
     console := console st; variables := variables st; states := states st;
     functions := functions st; operations := operations st;
     sections := sections st; mem := mem st; is_test := is_test st;
     output := output st; runtime_error := v; is_in_try := is_in_try st;
     runed_functions := runed_functions st;
     current_namespace := current_namespace st;
     used_namespaces := used_namespaces st;
     included_modules := included_modules st;
     current_step := current_step st; main_filename := main_filename st;
     current_func := current_func st |}.

Definition put_is_in_try (v : option string) (st : Program) : Program :=
  {| op_store := op_store st; dict_store := dict_store st;
     obj_store := obj_store st;
     console := console st; variables := variables st; states := states st;
     functions := functions st; operations := operations st;
     sections := sections st; mem := mem st; is_test := is_test st;
     output := output st; runtime_error := runtime_error st; is_in_try := v;
     runed_functions := runed_functions st;
     current_namespace := current_namespace st;
     used_namespaces := used_namespaces st;
     included_modules := included_modules st;
     current_step := current_step st; main_filename := main_filename st;
     current_func := current_func st |}.

Definition put_runed_functions (v : list Z) (st : Program) : Program :=
  {| op_store := op_store st; dict_store := dict_store st;
     obj_store := obj_store st;
     console := console st; variables := variables st; states := states st;
     functions := functions st; operations := operations st;
     sections := sections st; mem := mem st; is_test := is_test st;
     output := output st; runtime_error := runtime_error st;
     is_in_try := is_in_try st; runed_functions := v;
     current_namespace := current_namespace st;
     used_namespaces := used_namespaces st;
     included_modules := included_modules st;
     current_step := current_step st; main_filename := main_filename st;
     current_func := current_func st |}.

Definition put_current_step (v : Z) (st : Program) : Program :=
  {| op_store := op_store st; dict_store := dict_store st;
     obj_store := obj_store st;
     console := console st; variables := variables st; states := states st;
     functions := functions st; operations := operations st;
     sections := sections st; mem := mem st; is_test := is_test st;
     output := output st; runtime_error := runtime_error st;
     is_in_try := is_in_try st; runed_functions := runed_functions st;
     current_namespace := current_namespace st;
     used_namespaces := used_namespaces st;
     included_modules := included_modules st; current_step := v;
     main_filename := main_filename st; current_func := current_func st |}.

(** Attributes that only the methods of the base class assign. *)

Definition put_current_namespace (v : string) (st : Program) : Program :=
  {| op_store := op_store st; dict_store := dict_store st;
     obj_store := obj_store st;
     console := console st; variables := variables st; states := states st;
     functions := functions st; operations := operations st;
     sections := sections st; mem := mem st; is_test := is_test st;
     output := output st; runtime_error := runtime_error st;
     is_in_try := is_in_try st; runed_functions := runed_functions st;
     current_namespace := v; used_namespaces := used_namespaces st;
     included_modules := included_modules st;
     current_step := current_step st; main_filename := main_filename st;
     current_func := current_func st |}.

Definition put_used_namespaces (v : list string) (st : Program) : Program :=
  {| op_store := op_store st; dict_store := dict_store st;
     obj_store := obj_store st;
     console := console st; variables := variables st; states := states st;
     functions := functions st; operations := operations st;
     sections := sections st; mem := mem st; is_test := is_test st;
     output := output st; runtime_error := runtime_error st;
     is_in_try := is_in_try st; runed_functions := runed_functions st;
     current_namespace := current_namespace st; used_namespaces := v;
     included_modules := included_modules st;
     current_step := current_step st; main_filename := main_filename st;
     current_func := current_func st |}.

Definition put_current_func (v : option string) (st : Program) : Program :=
  {| op_store := op_store st; dict_store := dict_store st;
     obj_store := obj_store st;
     console := console st; variables := variables st; states := states st;
     functions := functions st; operations := operations st;
     sections := sections st; mem := mem st; is_test := is_test st;
     output := output st; runtime_error := runtime_error st;
     is_in_try := is_in_try st; runed_functions := runed_functions st;
     current_namespace := current_namespace st;
     used_namespaces := used_namespaces st;
     included_modules := included_modules st;
     current_step := current_step st; main_filename := main_filename st;
     current_func := v |}.

(** ** Running code: state, Python exceptions and [sys.exit]

    A method of [Program] is a function from the state to an [outcome]: it
    returns normally, leaves by a Python exception, or ends the process.
    Every outcome carries the state reached, since the writes made before an
    exception stay made. *)

Inductive outcome (A : Type) : Type :=
| Ok (a : A) (st : Program)
| Raise (ex : pyexc) (st : Program)
| Exit (code : Z) (st : Program).

Arguments Ok {A} a st.
Arguments Raise {A} ex st.
Arguments Exit {A} code st.

Definition M (A : Type) : Type := Program → outcome A.

Definition ret {A} (a : A) : M A := λ st, Ok a st.

Definition bind {A B} (m : M A) (k : A → M B) : M B := λ st,
  match m st with
  | Ok a st' => k a st'
  | Raise ex st' => Raise ex st'
  | Exit code st' => Exit code st'
  end.

Notation "'let!' x ':=' m 'in' k" := (bind m (λ x, k))
  (at level 10, x name, m at level 100, k at level 200,
   format "'[v' 'let!'  x  ':='  m  'in' '/' k ']'").
Notation "m '>>' k" := (bind m (λ _, k))
  (at level 100, k at level 200, right associativity).

(** [raise ex] *)
Definition throw {A} (ex : pyexc) : M A := λ st, Raise ex st.

(** [try: m  except Exception as ex: h ex].  [sys.exit] raises [SystemExit],
    which is not an [Exception] and passes through. *)
Definition try_except {A} (m : M A) (h : pyexc → M A) : M A := λ st,
  match m st with
  | Raise ex st' => h ex st'
  | r => r
  end.

(** Reading and writing attributes inside [M]. *)
Definition gets {A} (f : Program → A) : M A := λ st, Ok (f st) st.
Definition modify (f : Program → Program) : M unit := λ st, Ok tt (f st).

(** [print(line)] *)
Definition print (line : string) : M unit :=
  modify (λ st, put_console (console st ++ [line]) st).

(** [sys.exit(code)] *)
Definition sys_exit {A} (code : Z) : M A := λ st, Exit code st.

(** Dereferencing an operation.  A reference outside the store cannot
    arise in Python; the model leaves by [ReferenceError] there. *)
Definition get_op (op : ref) : M Operation := λ st,
  match op_store st !! op with
  | Some o => Ok o st
  | None => Raise ReferenceError st
  end.

(** Building a new operation dict, as [parser.parse(...)[0]] does. *)
Definition new_op (o : Operation) : M ref := λ st,
  Ok (length (op_store st)) (put_op_store (op_store st ++ [o]) st).

(** Building a new list or dict that is a value. *)
Definition new_obj (o : pyobj) : M ref := λ st,
  Ok (length (obj_store st)) (put_obj_store (obj_store st ++ [o]) st).

(** [len(v)]; the [TypeError] of a value without length is an
    [Exception] with its text. *)
Definition py_len (v : value) : M Z := λ st,
  match v with
  | VStr s => Ok (Z.of_nat (String.length s)) st
  | VList r | VDict r =>
      match obj_store st !! r with
      | Some (OList items) => Ok (Z.of_nat (length items)) st
      | Some (ODict entries) => Ok (Z.of_nat (size entries)) st
      | None => Raise ReferenceError st
      end
  | VNone => Raise (Exception "object of type 'NoneType' has no len()") st
  | VBool _ => Raise (Exception "object of type 'bool' has no len()") st
  | VInt _ => Raise (Exception "object of type 'int' has no len()") st
  end.

(** [dict(d)]: a new dict object with the entries of [d].  The copy is
    shallow: an entry that is a list or a dict is the same reference in
    both dicts. *)
Definition copy_dict (d : ref) : M ref := λ st,
  match dict_store st !! d with
  | Some entries =>
      Ok (length (dict_store st)) (put_dict_store (dict_store st ++ [entries]) st)
  | None => Raise ReferenceError st
  end.

(** Modelled from the spec: the parser ([syntax/parser.py]) is outside the
    sources at hand.  Section 6 of the spec gives an operation the fields
    [command], [args], [args_str] and its source text, and names the two
    single-operation utilities [pass] and [popstate]; a freshly parsed
    operation carries no index yet (Section 3). *)
Definition parse_pass : Operation :=
  {| command := "pass"; args := []; args_str := EmptyString; str := "pass";
     index := None |}.

Definition parse_popstate : Operation :=
  {| command := "popstate"; args := []; args_str := EmptyString;
     str := "popstate"; index := None |}.

(** ** The methods of [Program] *)

(** [set_operation_index]: [op['index'] = self.current_step], in place. *)
Definition set_operation_index (op : ref) : M unit :=
  modify (λ st,
    put_op_store (alter (with_index (Some (current_step st))) op (op_store st)) st).

(** [get_mem]: return the memory value and empty it. *)
Definition get_mem : M value := λ st,
  let mem_value := mem st in
  Ok mem_value (put_mem VNone st).

(** [update_section_indexes]: add 1 to every section index greater than
    [after_index]. *)
Definition update_section_indexes (after_index : Z) (st : Program) : Program :=
  put_sections
    ((λ v, if bool_decide (v > after_index) then v + 1 else v) <$> sections st) st.

(** The call-trace loop of [raise_error]: for each frame, print the
    operation at its entry point.  Only [KeyError] is caught there: an
    operation without index is skipped, an entry point out of range is not. *)
Fixpoint print_trace (frames : list Frame) : M unit :=
  match frames with
  | [] => ret tt
  | state :: rest =>
      let! ops := gets operations in
      match py_getitem ops (entry_point state) with
      | None => throw index_error
      | Some tmp =>
          let! tmp_op := get_op tmp in
          match index tmp_op with
          | None => print_trace rest
          | Some i =>
              print (tab +:+ "in " +:+ pretty i +:+ ": " +:+ str tmp_op) >>
              print_trace rest
          end
      end
  end.

(** [raise_error] *)
Definition raise_error (error_type message : string) (op : ref) : M unit :=
  let! in_try := gets is_in_try in
  match in_try with
  | Some section_index =>
      modify (put_is_in_try None) >>
      let! table := gets sections in
      match table !! section_index with
      | None => throw (key_error section_index)
      | Some new_step =>
          modify (put_current_step (new_step - 1)) >>
          let! o := get_op op in
          match index o with
          | None => throw (key_error "index")
          | Some i =>
              let! data :=
                new_obj (ODict {[ "type" := VStr error_type;
                                  "message" := VStr message;
                                  "index" := VInt i ]}) in
              modify (put_mem (VDict data))
          end
      end
  | None =>
      let! test := gets is_test in
      if test : bool then
        modify (put_runtime_error (Some (error_type, message, op)))
      else
        print (error_type +:+ ": " +:+ message +:+ ":") >>
        let! frames := gets states in
        print_trace frames >>
        let! o := get_op op in
        match index o with
        | None => throw (key_error "index")
        | Some i =>
            print (tab +:+ "in " +:+ pretty i +:+ ": " +:+ str o) >>
            sys_exit 1
        end
  end.

(** One insertion into the operation stream, as [exec_func] performs it:
    [self.operations.insert(at, op); self.update_section_indexes(at)]. *)
Definition insert_operation (at_index : Z) (op : ref) (st : Program) : Program :=
  update_section_indexes at_index
    (put_operations (py_insert at_index op (operations st)) st).

(** The [for func_op in func_body] loop of [exec_func]; returns the final
    value of [i]. *)
Fixpoint exec_func_loop (func_body : list ref) (i : Z) (is_in_func : bool)
  : M Z :=
  match func_body with
  | [] => ret i
  | func_op :: rest =>
      set_operation_index func_op >>
      let! func_op_parsed := get_op func_op in
      if bool_decide (command func_op_parsed = "section") && negb is_in_func then
        match args func_op_parsed with
        | [] => throw index_error
        | section_name :: _ =>
            modify (λ st, put_sections (<[section_name := i + 1]> (sections st)) st) >>
            exec_func_loop rest i is_in_func
        end
      else
        let is_in_func' :=
          if bool_decide (command func_op_parsed = "func") then true
          else if bool_decide (command func_op_parsed = "endfunc") then false
          else is_in_func in
        modify (insert_operation (i + 1) func_op) >>
        exec_func_loop rest (i + 1) is_in_func'
  end.

(** [exec_func]: run a list of operations as a function ([with_state]) or
    as an included script. *)
Definition exec_func (func_body : list ref) (with_state : bool) : M unit :=
  (* create new state for this call *)
  (if with_state then
     let! step := gets current_step in
     let! globals := gets variables in
     let! snapshot := copy_dict globals in
     modify (λ st, put_states (states st ++ [mkFrame step snapshot]) st)
   else ret tt) >>
  (* check function already called in this point *)
  let! step := gets current_step in
  let! runed := gets runed_functions in
  if bool_decide (step ∈ runed) && with_state then ret tt
  else
    (* add this point to runed functions *)
    (if with_state then
       modify (λ st, put_runed_functions (runed_functions st ++ [step]) st)
     else ret tt) >>
    (* run function *)
    let! i := exec_func_loop func_body step false in
    if with_state then
      let! marker := new_op parse_popstate in
      modify (insert_operation (i + 1) marker)
    else ret tt.

(** The commands that [run] hands to a method of the [Helpers] base class,
    in the order of the [elif] chain. *)
Definition builtin_commands : list string :=
  ["set"; "free"; "copy"; "out"; "read"; "return"; "func"; "required";
   "typeof"; "system"; "include"; "goto"; "gotoif"; "fread"; "fwrite";
   "chdir"; "cwd"; "isset"; "try"; "endtry"; "eval"; "arraypush";
   "arraypop"; "python"; "namespace"; "endnamespace"; "use"].

(** The base class [helpers.Helpers] is outside the sources at hand; [run]
    is written against its interface.  [run_builtin name op] is the method
    [run_<name>(op)]; [eval_args text] stands for the substitution of the
    variable sigils in the argument text followed by Python's [eval]. *)
Class Helpers : Type := {
  run_builtin : string → ref → M unit;
  eval_args : string → M value;
}.

(** The lookup of the function body in [run]: [None] is the [KeyError] of
    the last lookup, on the bare name. *)
Definition lookup_function (op_name : string) (st : Program) : option (list ref) :=
  match functions st !! (current_namespace st +:+ op_name) with
  | Some func_body => Some func_body
  | None =>
      let func_body :=
        foldl (λ found used_namespace,
                 match functions st !! (used_namespace +:+ "." +:+ op_name) with
                 | Some body => Some body
                 | None => found
                 end)
              None (used_namespaces st) in
      match func_body with
      | Some (_ :: _) => func_body
      | _ => functions st !! op_name
      end
  end.

Section dispatcher.
Context `{Helpers}.

(** The call of a function by [run], once its body is found. *)
Definition call_function (op : ref) (func_body : list ref) : M unit :=
  try_except
    (let! o := get_op op in
     (if bool_decide (args_str o ≠ EmptyString) then
        let! v := eval_args (args_str o) in
        modify (put_mem v)
      else modify (put_mem (VStr EmptyString))) >>
     exec_func func_body true)
    (λ ex, raise_error "RuntimeError" (exc_str ex) op).

(** [run]: run once operation. *)
Definition run (op : ref) : M unit :=
  set_operation_index op >>
  let! o := get_op op in
  let op_name := command o in
  if bool_decide (op_name = "endfunc") then run_builtin "endfunc" op
  else if bool_decide (op_name = "popstate") then
    modify (λ st, match states st with
                  | [] => st
                  | _ :: _ => put_states (removelast (states st)) st
                  end)
  else
    (* if a function is started, append the operation to its body *)
    let! open_func := gets current_func in
    let! table := gets functions in
    match open_func ≫= λ name, (name,.) <$> table !! name with
    | Some (name, body) =>
        modify (put_functions (<[name := body ++ [op]]> table))
    | None =>
        if bool_decide (op_name ∈ builtin_commands) then run_builtin op_name op
        else if bool_decide (op_name = "pass") then ret tt
        else
          (* check function exists *)
          let! found := gets (lookup_function op_name) in
          match found with
          | None =>
              raise_error "SyntaxError"
                ("undefined operation " +:+ dquote +:+ op_name +:+ dquote) op
          | Some func_body => call_function op func_body
          end
    end.

(** One turn of the main loop of [start]. *)
Definition step : M unit :=
  try_except
    (let! ops := gets operations in
     let! pc := gets current_step in
     match py_getitem ops pc with
     | None => throw index_error
     | Some op => run op
     end)
    (λ ex,
       let! ops := gets operations in
       let! pc := gets current_step in
       match py_getitem ops pc with
       | None => throw index_error
       | Some op =>
           set_operation_index op >>
           raise_error "RuntimeError" (exc_str ex) op
       end) >>
  modify (λ st, put_current_step (current_step st + 1) st).

(** The main loop, [while self.current_step < len(self.operations)], run
    for at most [fuel] turns; the second component tells whether the loop
    has ended by itself. *)
Fixpoint main_loop (fuel : nat) : M bool :=
  match fuel with
  | O => gets (λ st, bool_decide (¬ current_step st < Z.of_nat (length (operations st))))
  | S fuel' =>
      let! pc := gets current_step in
      let! ops := gets operations in
      if bool_decide (pc < Z.of_nat (length ops)) then step >> main_loop fuel'
      else ret true
  end.
End dispatcher.

(** The link pass of [start]: [while i < len(self.operations)], written
    over the number [todo] of operations left, with [i] the position. *)
Fixpoint load_sections (todo : nat) (i : Z) (is_in_func : bool) : M unit :=
  match todo with
  | O => ret tt
  | S todo' =>
      let! ops := gets operations in
      match py_getitem ops i with
      | None => throw index_error
      | Some op =>
          set_operation_index op >>
          let! current_op := get_op op in
          if bool_decide (command current_op = "section") then
            if is_in_func then load_sections todo' (i + 1) is_in_func
            else
              match args current_op with
              | [] => throw index_error
              | arg :: _ =>
                  modify (λ st, put_sections (<[arg := i + 1]> (sections st)) st) >>
                  let! noop := new_op parse_pass in
                  let! ops := gets operations in
                  match py_setitem ops i noop with
                  | None => throw assignment_index_error
                  | Some ops' =>
                      modify (put_operations ops') >>
                      load_sections todo' (i + 1) is_in_func
                  end
              end
          else if bool_decide (command current_op = "func") then
            load_sections todo' (i + 1) true
          else if bool_decide (command current_op = "endfunc") then
            load_sections todo' (i + 1) false
          else load_sections todo' (i + 1) is_in_func
      end
  end.

(** The part of [start] before the main loop. *)
Definition link : M unit :=
  modify (put_current_step 0) >>
  let! ops := gets operations in
  load_sections (length ops) 0 false >>
  modify (put_current_step 0).

(** [start], with the main loop bounded by [fuel]. *)
Definition start `{Helpers} (fuel : nat) : M bool :=
  link >> main_loop fuel.

(** [signal_handler]: an interrupt becomes an error at the current
    operation. *)
Definition signal_handler (signal : Z) : M unit :=
  let! ops := gets operations in
  let! pc := gets current_step in
  match py_getitem ops pc with
  | None => throw index_error
  | Some op => raise_error "Signal" (pretty signal) op
  end.

(** ** The variable store

    Modelled from the spec: [set_var], [get_var] and [all_vars] belong to
    [core/helpers.py], which is outside the sources at hand.  The spec
    (Sections 2 and 3) describes the variable store as a name-to-value
    mapping "scoped per call frame" with "one live instance at a time": the
    live instance is taken to be the [vars] dict of the innermost call
    frame when the call stack is not empty, and [self.variables]
    otherwise. *)
Definition all_vars (st : Program) : ref :=
  match last (states st) with
  | Some frame => vars frame
  | None => variables st
  end.

Definition set_var (name : string) (v : value) : M unit := λ st,
  match dict_store st !! all_vars st with
  | Some _ =>
      Ok tt (put_dict_store (alter (<[name := v]>) (all_vars st) (dict_store st)) st)
  | None => Raise ReferenceError st
  end.

Definition get_var (name : string) : M value := λ st,
  match dict_store st !! all_vars st with
  | Some entries =>
      match entries !! name with
      | Some v => Ok v st
      | None => Raise (key_error name) st
      end
  | None => Raise ReferenceError st
  end.

(** [__init__]: the attributes, then the argument variables.  [argv] is
    the list object that the caller passes as [args]. *)
Definition init (test : bool) (cwd : string) (argv : list string) : outcome unit :=
  (let! args := new_obj (OList (VStr <$> argv)) in
   set_var "argv" (VList args) >>
   let! a := get_var "argv" in
   let! argc := py_len a in
   set_var "argc" (VInt argc))
  {| op_store := []; dict_store := [∅]; obj_store := []; console := [];
     variables := 0%nat; states := []; functions := {["mem" := []]};
     operations := []; sections := ∅; mem := VNone; is_test := test;
     output := EmptyString; runtime_error := None; is_in_try := None;
     runed_functions := []; current_namespace := EmptyString;
     used_namespaces := []; included_modules := [];
     current_step := 0; main_filename := cwd +:+ "/a";
     current_func := None |}.

(** [set_operations]: the two operations of the standard-library prelude
    go first.  [tmp] is what the parser returns for the prelude text,
    [ops] the parsed program; all are built by the parser as new dicts. *)
Definition set_operations (tmp0 tmp1 : Operation) (ops : list Operation)
  : M unit :=
  let! first := gets (λ st, length (op_store st)) in
  modify (λ st, put_op_store (op_store st ++ ops) st) >>
  let! r0 := new_op tmp0 in
  let! r1 := new_op tmp1 in
  modify (put_operations
            (py_insert 1 r1 (py_insert 0 r0 (seq first (length ops))))).

(** The state reached by an outcome. *)
Definition final_state {A} (r : outcome A) : Program :=
  match r with
  | Ok _ st | Raise _ st | Exit _ st => st
  end.

(** * Vocabulary of the statements *)

(** The state after [set_operation_index op]. *)
Definition stamped (op : ref) (st : Program) : Program :=
  final_state (set_operation_index op st).

(** The call stack along an execution.  [stack_trace st pushes pops st']:
    [st'] is reached from [st] by calls through [exec_func], splices of
    included code, [popstate] operations and steps that leave the call
    stack alone; [pushes] counts the calls and [pops] the [popstate]
    operations met with a frame on the stack. *)
Inductive stack_trace `{Helpers} (st : Program) : nat → nat → Program → Prop :=
| trace_start : stack_trace st 0 0 st
| trace_call pushes pops st1 st2 func_body :
    stack_trace st pushes pops st1 →
    exec_func func_body true st1 = Ok tt st2 →
    stack_trace st (S pushes) pops st2
| trace_include pushes pops st1 st2 func_body :
    stack_trace st pushes pops st1 →
    exec_func func_body false st1 = Ok tt st2 →
    stack_trace st pushes pops st2
| trace_popstate pushes pops st1 st2 op o :
    stack_trace st pushes pops st1 →
    op_store st1 !! op = Some o → command o = "popstate" →
    states st1 ≠ [] →
    run op st1 = Ok tt st2 →
    stack_trace st pushes (S pops) st2
| trace_popstate_empty pushes pops st1 st2 op o :
    stack_trace st pushes pops st1 →
    op_store st1 !! op = Some o → command o = "popstate" →
    states st1 = [] →
    run op st1 = Ok tt st2 →
    stack_trace st pushes pops st2
| trace_other pushes pops st1 st2 :
    stack_trace st pushes pops st1 →
    states st2 = states st1 →
    stack_trace st pushes pops st2.

(** The resolution order in the words of the spec: the current namespace,
    then the used namespaces in the order of their declaration with the
    first match winning, then the bare name. *)
Definition lookup_function_first_match (op_name : string) (st : Program)
  : option (list ref) :=
  match functions st !! (current_namespace st +:+ op_name) with
  | Some func_body => Some func_body
  | None =>
      match list_find (λ ns, is_Some (functions st !! (ns +:+ "." +:+ op_name)))
                      (used_namespaces st) with
      | Some (_, ns) => functions st !! (ns +:+ "." +:+ op_name)
      | None => functions st !! op_name
      end
  end.




(** The [is_in_func] flag after an operation with command [cmd]. *)
Definition func_toggle (is_in_func : bool) (cmd : string) : bool :=
  if bool_decide (cmd = "func") then true
  else if bool_decide (cmd = "endfunc") then false
  else is_in_func.

(** The labels that the loop of [exec_func] records for [func_body]: the
    first argument of each [section] operation outside a function
    definition. *)
Fixpoint body_labels (store : list Operation) (func_body : list ref)
    (is_in_func : bool) : list string :=
  match func_body with
  | [] => []
  | func_op :: rest =>
      match store !! func_op with
      | None => []
      | Some o =>
          if bool_decide (command o = "section") && negb is_in_func then
            match args o with
            | [] => []
            | section_name :: _ => section_name :: body_labels store rest is_in_func
            end
          else body_labels store rest (func_toggle is_in_func (command o))
      end
  end.

(** Every operation that the stream refers to exists. *)
Definition ops_allocated (st : Program) : Prop :=
  Forall (λ op, (op < length (op_store st))%nat) (operations st).

(** The command and the arguments of the operation at a position of the
    stream. *)
Definition op_text (st : Program) (pos : nat) : option (string * list string) :=
  operations st !! pos ≫= λ op,
    (λ o, (command o, args o)) <$> op_store st !! op.

(** The [is_in_func] flag of the link pass after the [count] operations
    from position [pos] on, starting from [flag]. *)
Fixpoint flag_after (st : Program) (pos count : nat) (flag : bool) : bool :=
  match count with
  | O => flag
  | S count' =>
      flag_after st (S pos) count'
        (match op_text st pos with
         | Some (cmd, _) => func_toggle flag cmd
         | None => flag
         end)
  end.

(** For a pass that is at position [from] with the flag [flag]: the
    operation at [pos] is a declaration of [label] outside a function
    definition. *)
Definition declares (st : Program) (from : nat) (flag : bool)
    (pos : nat) (label : string) : Prop :=
  (from ≤ pos)%nat ∧
  (∃ more, op_text st pos = Some ("section", label :: more)) ∧
  flag_after st from (pos - from) flag = false.

Definition toplevel_section (st : Program) (pos : nat) (label : string) : Prop :=
  declares st 0 false pos label.

(** A [section] without argument occurs inside function definitions
    only. *)
Definition labelled_from (st : Program) (from : nat) (flag : bool) : Prop :=
  ∀ pos, (from ≤ pos)%nat →
    op_text st pos = Some ("section", []) →
    flag_after st from (pos - from) flag = true.

(** What the link pass has done when it started at position [from] with
    the flag [flag] in the state [st] and ended in [st']. *)
Definition link_post (st : Program) (from : nat) (flag : bool) (st' : Program)
  : Prop :=
  length (operations st') = length (operations st) ∧
  (∀ pos, (pos < from)%nat → operations st' !! pos = operations st !! pos) ∧
  (∀ op o, op_store st !! op = Some o →
     ∃ o', op_store st' !! op = Some o' ∧
           command o' = command o ∧ args o' = args o) ∧
  (∀ label,
     sections st' !! label = sections st !! label ∨
     ∃ pos, declares st from flag pos label ∧
            sections st' !! label = Some (Z.of_nat pos + 1)) ∧
  (∀ pos label,
     declares st from flag pos label →
     op_text st' pos = Some ("pass", []) ∧
     ∃ last, (pos ≤ last)%nat ∧ declares st from flag last label ∧
             sections st' !! label = Some (Z.of_nat last + 1)) ∧
  (∀ pos, (from ≤ pos)%nat →
     (∀ label, ¬ declares st from flag pos label) →
     operations st' !! pos = operations st !! pos).

(** * Example programs *)

(** A [Helpers] instance for the examples: every builtin is a no-op and
    every argument text evaluates to [None].  The examples below do not
    reach a builtin. *)
Definition idle_helpers : Helpers :=
  {| run_builtin := λ _ _, ret tt; eval_args := λ _, ret VNone |}.

Definition op_of (cmd : string) (arguments : list string) : Operation :=
  {| command := cmd; args := arguments; args_str := EmptyString; str := cmd;
     index := None |}.

(** A program in test mode made of the one operation [popstate]. *)
Definition lone_popstate : Program :=
  put_operations [0%nat]
    (put_op_store [parse_popstate] (final_state (init true "/home" []))).

(** A program about to run the call [f] at position 0; the store holds
    an [out] operation, the body of [f], under reference 1. *)
Definition before_call : Program :=
  put_operations [0%nat]
    (put_op_store [op_of "f" []; op_of "out" []]
       (final_state (init true "/home" []))).

(** The same program during the call and after the [popstate] marker. *)
Definition during_call : Program :=
  final_state (exec_func [1%nat] true before_call).

Definition after_call : Program :=
  final_state (@run idle_helpers 2%nat during_call).

(** The same program coming back to the call site at position 0. *)
Definition revisited : Program := put_runed_functions [0] before_call.








(** Two used namespaces that both define [f]. *)
Definition two_namespaces : Program :=
  put_used_namespaces ["a"; "b"] (put_functions {[ "a.f" := [0%nat]; "b.f" := [1%nat] ]}
    (put_op_store [op_of "out" []; op_of "read" []]
       (final_state (init true "/home" [])))).

(** A used namespace that defines [f] with an empty body. *)
Definition empty_body : Program :=
  put_used_namespaces ["a"] (put_functions {[ "a.f" := [] ]}
    (final_state (init true "/home" []))).

(** A program with the sections [a -> 1], [b -> 2] and [c -> 3] about to
    run the call [f] at position 0; the body of [f] is the operation under
    reference 3. *)
Definition with_sections : Program :=
  put_sections {[ "a" := 1; "b" := 2; "c" := 3 ]}
    (put_operations [0%nat; 1%nat; 2%nat]
       (put_op_store [op_of "f" []; op_of "pass" []; op_of "out" []; op_of "read" []]
          (final_state (init true "/home" [])))).

(** The same program once [exec_func] has spliced the body of [f]. *)
Definition spliced_sections : Program :=
  final_state (exec_func [3%nat] true with_sections).

(** The same program when the body of [f] is [section b; read], with the
    declaration of [b] under reference 4, before and after the call. *)
Definition redeclaring : Program :=
  put_op_store (op_store with_sections ++ [op_of "section" ["b"]]) with_sections.

Definition redeclared : Program :=
  final_state (exec_func [4%nat; 3%nat] true redeclaring).

(** The program [section top; func f; section inner; endfunc; goto top]
    before the link pass. *)
Definition unlinked : Program :=
  put_operations [0%nat; 1%nat; 2%nat; 3%nat; 4%nat]
    (put_op_store [op_of "section" ["top"]; op_of "func" ["f"];
                   op_of "section" ["inner"]; op_of "endfunc" [];
                   op_of "goto" ["top"]]
       (final_state (init true "/home" []))).

Definition linked : Program := final_state (link unlinked).

(** A program in test mode with the try-context armed for the section
    [err]; the operation under reference 0 has been stamped at index 2. *)
Definition armed : Program :=
  put_is_in_try (Some "err")
    (put_sections {[ "err" := 5 ]}
       (put_operations [0%nat]
          (put_op_store [with_index (Some 2) (op_of "boom" [])]
             (put_mem (VStr "pending") (final_state (init true "/home" [])))))).

(** The same program with no try-context. *)
Definition idle : Program := put_is_in_try None armed.

(** * Further vocabulary *)

(** A text of printable ASCII characters with neither a single quote nor
    a backslash. *)
Fixpoint plain_text (s : string) : bool :=
  match s with
  | EmptyString => true
  | String ch rest =>
      let c := Ascii.N_of_ascii ch in
      (32 <=? c)%N && (c <? 127)%N && negb (Ascii.eqb ch squote_char)
      && negb (Ascii.eqb ch backslash) && plain_text rest
  end.

(** The lines that the call-trace loop of [raise_error] prints for the
    frames [frames]: one for each frame whose entry point holds an
    operation with an index. *)
Fixpoint trace_lines (st : Program) (frames : list Frame) : list string :=
  match frames with
  | [] => []
  | frame :: rest =>
      match py_getitem (operations st) (entry_point frame) ≫= (op_store st !!.) with
      | Some tmp_op =>
          match index tmp_op with
          | Some i => (tab +:+ "in " +:+ pretty i +:+ ": " +:+ str tmp_op)
                        :: trace_lines st rest
          | None => trace_lines st rest
          end
      | None => trace_lines st rest
      end
  end.

(** Every frame has its entry point inside the operation stream, at an
    operation that exists. *)
Definition frames_in_range (st : Program) : Prop :=
  Forall (λ frame,
            is_Some (py_getitem (operations st) (entry_point frame)
                       ≫= (op_store st !!.)))
         (states st).

(** The operations of [func_body] that the loop of [exec_func] puts into
    the stream, in order: all but the [section] operations outside a
    function definition. *)
Fixpoint spliced_ops (store : list Operation) (func_body : list ref)
    (is_in_func : bool) : list ref :=
  match func_body with
  | [] => []
  | func_op :: rest =>
      match store !! func_op with
      | None => []
      | Some o =>
          if bool_decide (command o = "section") && negb is_in_func then
            match args o with
            | [] => []
            | _ :: _ => spliced_ops store rest is_in_func
            end
          else func_op :: spliced_ops store rest (func_toggle is_in_func (command o))
      end
  end.

(** The flag [is_in_func] of the loop of [exec_func] at the end of
    [func_body]. *)
Fixpoint body_flag (store : list Operation) (func_body : list ref)
    (is_in_func : bool) : bool :=
  match func_body with
  | [] => is_in_func
  | func_op :: rest =>
      match store !! func_op with
      | None => is_in_func
      | Some o =>
          if bool_decide (command o = "section") && negb is_in_func then
            body_flag store rest is_in_func
          else body_flag store rest (func_toggle is_in_func (command o))
      end
  end.

(** The loop of [exec_func] can go through [func_body]: every operation
    exists, and every [section] outside a function definition has its
    label. *)
Fixpoint body_wf (store : list Operation) (func_body : list ref)
    (is_in_func : bool) : bool :=
  match func_body with
  | [] => true
  | func_op :: rest =>
      match store !! func_op with
      | None => false
      | Some o =>
          if bool_decide (command o = "section") && negb is_in_func then
            match args o with
            | [] => false
            | _ :: _ => body_wf store rest is_in_func
            end
          else body_wf store rest (func_toggle is_in_func (command o))
      end
  end.

(** The attributes that splicing has no business with. *)
Definition same_control (st st' : Program) : Prop :=
  current_step st' = current_step st ∧ mem st' = mem st ∧
  functions st' = functions st ∧ is_in_try st' = is_in_try st ∧
  runtime_error st' = runtime_error st ∧ console st' = console st ∧
  output st' = output st ∧ is_test st' = is_test st ∧
  current_namespace st' = current_namespace st ∧
  used_namespaces st' = used_namespaces st ∧
  included_modules st' = included_modules st ∧
  current_func st' = current_func st ∧ variables st' = variables st.

(** The operations of [store] are in [store'], up to their index. *)
Definition same_code (store store' : list Operation) : Prop :=
  ∀ op o, store !! op = Some o →
    ∃ o', store' !! op = Some o' ∧ with_index None o' = with_index None o.

(** The operations that the stream refers to, position by position. *)
Definition stream (st : Program) : list (option Operation) :=
  (λ op, op_store st !! op) <$> operations st.


(** * Further example programs *)

(** A program outside the test mode, inside a call made at position 0,
    about to fail at the operation under reference 1. *)
Definition crashing : Program :=
  put_states [mkFrame 0 0%nat]
    (put_operations [0%nat; 1%nat]
       (put_op_store [with_index (Some 0) (op_of "f" []);
                      with_index (Some 1) (op_of "boom" [])]
          (final_state (init false "/home" [])))).

(** The program [armed] with the try-context armed for a label that no
    section declares. *)
Definition armed_nowhere : Program := put_is_in_try (Some "nowhere") armed.

(** The program [before_call] with [f] in the function table. *)
Definition calling : Program :=
  put_functions {[ "f" := [1%nat] ]} before_call.

(** A program about to call [f], whose body is a section without
    label. *)
Definition unlabelled_body : Program :=
  put_functions {[ "f" := [1%nat] ]}
    (put_operations [0%nat]
       (put_op_store [op_of "f" []; op_of "section" []]
          (final_state (init true "/home" [])))).

(** A program about to call at position 0 a function with the body
    [out; section again; read]. *)
Definition labelled_body : Program :=
  put_operations [0%nat; 1%nat]
    (put_op_store [op_of "f" []; op_of "pass" []; op_of "out" [];
                   op_of "section" ["again"]; op_of "read" []]
       (final_state (init true "/home" []))).

(** The program [before_call] inside the definition of [f], about to meet
    the operation [out]. *)
Definition defining : Program :=
  put_current_func (Some "f") (put_functions {[ "f" := [] ]} before_call).

(** Builtins that all fail with the same exception. *)
Definition failing_helpers : Helpers :=
  {| run_builtin := λ _ _, throw (Exception "no such file");
     eval_args := λ _, ret VNone |}.

(** A program about to run the builtin [out]. *)
Definition at_builtin : Program := put_operations [1%nat] before_call.

(** The program [pass; section] with a section that has no label. *)
Definition unlabelled_section : Program :=
  put_operations [0%nat; 1%nat]
    (put_op_store [op_of "pass" []; op_of "section" []]
       (final_state (init true "/home" []))).

(** The program [section top; pass; section end]. *)
Definition labels_only : Program :=
  put_operations [0%nat; 1%nat; 2%nat]
    (put_op_store [op_of "section" ["top"]; op_of "pass" [];
                   op_of "section" ["end"]]
       (final_state (init true "/home" []))).
(** * Properties *)

(** Unfolding of the monadic plumbing. *)
Ltac unfold_m :=
  unfold bind, gets, modify, ret, throw, print, sys_exit, get_op, try_except.

(** ** The mem register and the error controller *)

Lemma raise_error_armed error_type message op st label new_step o i :
  is_in_try st = Some label →
  sections st !! label = Some new_step →
  op_store st !! op = Some o →
  index o = Some i →
  raise_error error_type message op st =
    Ok tt (put_mem (VDict (length (obj_store st)))
             (put_obj_store
                (obj_store st ++
                   [ODict {[ "type" := VStr error_type;
                             "message" := VStr message;
                             "index" := VInt i ]}])
                (put_current_step (new_step - 1) (put_is_in_try None st)))).
Proof.
  intros Htry Hsec Hop Hidx. unfold raise_error, new_obj. unfold_m.
  rewrite Htry. simpl. rewrite Hsec. simpl. rewrite Hop, Hidx. reflexivity.
Qed.

(** An armed try-context whose label is not in the section table: the
    context is disarmed and the lookup leaves by [KeyError]. *)
Lemma raise_error_missing_label error_type message op st label :
  is_in_try st = Some label →
  sections st !! label = None →
  raise_error error_type message op st =
    Raise (key_error label) (put_is_in_try None st).
Proof.
  intros Htry Hsec. unfold raise_error. unfold_m.
  rewrite Htry. simpl. by rewrite Hsec.
Qed.

(** No try-context, no test mode and no call frame: the diagnostic is
    printed and the process ends with status 1. *)
Lemma raise_error_fatal error_type message op st o i :
  is_in_try st = None →
  is_test st = false →
  states st = [] →
  op_store st !! op = Some o →
  index o = Some i →
  raise_error error_type message op st =
    Exit 1 (put_console
              (console st ++
                 [error_type +:+ ": " +:+ message +:+ ":";
                  tab +:+ "in " +:+ pretty i +:+ ": " +:+ str o]) st).
Proof.
  intros Htry Htest Hstack Hop Hidx. unfold raise_error. unfold_m.
  rewrite Htry, Htest. simpl. rewrite Hstack. simpl. rewrite Hop, Hidx. simpl.
  by rewrite <- app_assoc.
Qed.

Lemma raise_error_harness error_type message op st :
  is_in_try st = None →
  is_test st = true →
  raise_error error_type message op st =
    Ok tt (put_runtime_error (Some (error_type, message, op)) st).
Proof.
  intros Htry Htest. unfold raise_error. unfold_m.
  rewrite Htry, Htest. reflexivity.
Qed.

Lemma print_trace_keeps frames st :
  let st' := final_state (print_trace frames st) in
  current_step st' = current_step st ∧ mem st' = mem st ∧
  is_in_try st' = is_in_try st ∧ runtime_error st' = runtime_error st ∧
  op_store st' = op_store st.
Proof.
  revert st. induction frames as [|fr frames IH]; intros st; simpl; [done|].
  unfold_m. simpl.
  destruct (py_getitem (operations st) (entry_point fr)) as [tmp|]; [|done].
  destruct (op_store st !! tmp) as [tmp_op|]; [|done].
  destruct (index tmp_op) as [i|]; [|apply IH].
  simpl. match goal with |- context [print_trace frames ?s] =>
    destruct (IH s) as (-> & -> & -> & -> & ->) end. done.
Qed.

(** Without a try-context an error never redirects the program counter
    and never returns normally outside the harness mode. *)
Lemma raise_error_idle error_type message op st :
  is_in_try st = None →
  let r := raise_error error_type message op st in
  current_step (final_state r) = current_step st ∧
  mem (final_state r) = mem st ∧
  (is_test st = false → ∀ st', r ≠ Ok tt st').
Proof.
  intros Htry. unfold raise_error. unfold_m. rewrite Htry.
  destruct (is_test st) eqn:Htest; simpl; [done|].
  pose proof (print_trace_keeps (states st)
    (put_console (console st ++ [error_type +:+ ": " +:+ message +:+ ":"]) st))
    as (Hpc & Hmem & _ & _ & Hstore).
  simpl in Hpc, Hmem, Hstore.
  destruct (print_trace _ _) as [[] st1|ex st1|code st1]; simpl in *; [|done..].
  rewrite Hstore.
  destruct (op_store st !! op) as [o|]; simpl; [|done].
  destruct (index o); simpl; done.
Qed.

(** C8.  The mem register is a single slot: [get_mem] returns the current
    value and leaves the register empty, so that a second read finds
    nothing; and a write replaces whatever was pending, as the write of
    the error payload by [raise_error] does: the next read returns the
    payload alone and the read after it finds the register empty. *)
Theorem C8_mem_register_single_slot (st : Program) :
  (∃ st', get_mem st = Ok (mem st) st' ∧ mem st' = VNone ∧
          get_mem st' = Ok VNone st') ∧
  (∀ v w : value,
     (modify (put_mem v) >> modify (put_mem w) >> get_mem) st =
       Ok w (put_mem VNone st)) ∧
  (∀ error_type message op label new_step o i,
     is_in_try st = Some label →
     sections st !! label = Some new_step →
     op_store st !! op = Some o →
     index o = Some i →
     ∃ st1 st2 data,
       raise_error error_type message op st = Ok tt st1 ∧
       get_mem st1 = Ok (VDict data) st2 ∧
       obj_store st2 !! data =
         Some (ODict {[ "type" := VStr error_type;
                        "message" := VStr message;
                        "index" := VInt i ]}) ∧
       get_mem st2 = Ok VNone st2).
Proof.
  split; [|split].
  - exists (put_mem VNone st). done.
  - done.
  - intros * Htry Hsec Hop Hidx. eexists _, _, _. split; [|split; [|split]].
    + by eapply raise_error_armed.
    + reflexivity.
    + simpl. by rewrite lookup_app_r, Nat.sub_diag.
    + reflexivity.
Qed.

Lemma C8_mem_register_single_slot_witness :
  ∃ st1 st2 data,
    raise_error "RuntimeError" "boom" 0%nat armed = Ok tt st1 ∧
    get_mem st1 = Ok (VDict data) st2 ∧
    obj_store st2 !! data =
      Some (ODict {[ "type" := VStr "RuntimeError";
                     "message" := VStr "boom";
                     "index" := VInt 2 ]}) ∧
    get_mem st2 = Ok VNone st2.
Proof.
  destruct (C8_mem_register_single_slot armed) as (_ & _ & Hwrite).
  apply (Hwrite "RuntimeError" "boom" 0%nat "err" 5 (with_index (Some 2) (op_of "boom" [])) 2).
  - reflexivity.
  - by vm_compute.
  - reflexivity.
  - reflexivity.
Defined.

(** C9.  With no try-context armed and the program in test mode,
    [raise_error] records [error_type, message, op] in [runtime_error] and
    returns: the program counter and every other attribute are as before,
    nothing is printed and the process is not ended. *)
Theorem C9_harness_records_error error_type message op (st : Program) :
  is_in_try st = None →
  is_test st = true →
  ∃ st',
    raise_error error_type message op st = Ok tt st' ∧
    st' = put_runtime_error (Some (error_type, message, op)) st ∧
    runtime_error st' = Some (error_type, message, op) ∧
    current_step st' = current_step st ∧
    console st' = console st.
Proof.
  intros Htry Htest. eexists. split; [by apply raise_error_harness|done].
Qed.

Lemma C9_harness_records_error_witness :
  ∃ st',
    raise_error "RuntimeError" "boom" 0%nat idle = Ok tt st' ∧
    st' = put_runtime_error (Some ("RuntimeError", "boom", 0%nat)) idle ∧
    runtime_error st' = Some ("RuntimeError", "boom", 0%nat) ∧
    current_step st' = current_step idle ∧
    console st' = console idle.
Proof.
  apply (C9_harness_records_error "RuntimeError" "boom" 0%nat idle);
    reflexivity.
Defined.

(** C4.  With the try-context armed with [label], [raise_error] disarms
    it, sets the program counter to [sections[label] - 1] and writes to
    the mem register a new dict whose entries are the type under [type],
    the message under [message] and the index of the operation under
    [index], and no other; an error raised later, in any state in which no new
    try has armed the context again, takes the path of an idle
    try-context: it does not redirect the program counter and does not
    touch the mem register, it is recorded in test mode and does not
    return to the dispatcher otherwise. *)
Theorem C4_armed_raise_consumed_once
    error_type message op (st : Program) label new_step o i :
  is_in_try st = Some label →
  sections st !! label = Some new_step →
  op_store st !! op = Some o →
  index o = Some i →
  ∃ st',
    raise_error error_type message op st = Ok tt st' ∧
    is_in_try st' = None ∧
    current_step st' = new_step - 1 ∧
    (∃ data,
       mem st' = VDict data ∧
       obj_store st !! data = None ∧
       obj_store st' !! data =
         Some (ODict {[ "type" := VStr error_type;
                        "message" := VStr message;
                        "index" := VInt i ]})) ∧
    ∀ later : Program,
      is_in_try later = is_in_try st' →
      ∀ error_type2 message2 op2,
        let r := raise_error error_type2 message2 op2 later in
        current_step (final_state r) = current_step later ∧
        mem (final_state r) = mem later ∧
        (is_test later = true →
           r = Ok tt (put_runtime_error (Some (error_type2, message2, op2)) later)) ∧
        (is_test later = false → ∀ st'', r ≠ Ok tt st'').
Proof.
  intros Htry Hsec Hop Hidx. eexists. split; [by eapply raise_error_armed|].
  split; [done|]. split; [done|]. split.
  { exists (length (obj_store st)). split; [done|]. split.
    - by apply lookup_ge_None.
    - simpl. by rewrite lookup_app_r, Nat.sub_diag. }
  intros later Hidle error_type2 message2 op2 r. simpl in Hidle.
  pose proof (raise_error_idle error_type2 message2 op2 later Hidle)
    as (Hpc & Hmem & Hexit).
  split; [exact Hpc|]. split; [exact Hmem|]. split.
  - intros Htest. subst r. by apply raise_error_harness.
  - exact Hexit.
Qed.

Lemma C4_armed_raise_consumed_once_witness :
  ∃ st' data,
    raise_error "RuntimeError" "boom" 0%nat armed = Ok tt st' ∧
    is_in_try st' = None ∧
    current_step st' = 4 ∧
    mem st' = VDict data ∧
    obj_store st' !! data =
      Some (ODict {[ "type" := VStr "RuntimeError";
                     "message" := VStr "boom";
                     "index" := VInt 2 ]}).
Proof.
  destruct (C4_armed_raise_consumed_once "RuntimeError" "boom" 0%nat armed
              "err" 5 (with_index (Some 2) (op_of "boom" [])) 2)
    as (st' & Hrun & Htry & Hpc & (data & Hmem & _ & Hdata) & _).
  - reflexivity.
  - by vm_compute.
  - reflexivity.
  - reflexivity.
  - by exists st', data.
Defined.

(** ** The dispatcher *)

Lemma run_popstate `{Helpers} op o (st : Program) :
  op_store st !! op = Some o →
  command o = "popstate" →
  run op st =
    Ok tt (match states st with
           | [] => stamped op st
           | _ :: _ => put_states (removelast (states st)) (stamped op st)
           end).
Proof.
  intros Hop Hcmd. unfold run, set_operation_index. unfold_m. simpl.
  rewrite list_lookup_alter_eq, Hop. simpl. rewrite Hcmd. simpl.
  by destruct (states st).
Qed.

Lemma run_popstate_pop `{Helpers} op o (st : Program) :
  op_store st !! op = Some o →
  command o = "popstate" →
  states st ≠ [] →
  run op st = Ok tt (put_states (removelast (states st)) (stamped op st)).
Proof.
  intros Hop Hcmd Hne. rewrite (run_popstate op o) by done.
  by destruct (states st).
Qed.

(** C10.  A [popstate] met with an empty call stack does nothing: [run]
    returns normally, the stack stays empty, and the main loop goes on to
    the next position.  Every attribute of the program other than the
    program counter is as before; in the operation store the only write
    is the index that [run] stamps on every operation it is given. *)
Theorem C10_popstate_on_empty_stack `{Helpers} op o (st : Program) :
  py_getitem (operations st) (current_step st) = Some op →
  op_store st !! op = Some o →
  command o = "popstate" →
  states st = [] →
  run op st = Ok tt (stamped op st) ∧
  ∃ st',
    step st = Ok tt st' ∧
    st' = put_current_step (current_step st + 1) (stamped op st) ∧
    states st' = [] ∧
    current_step st' = current_step st + 1 ∧
    dict_store st' = dict_store st ∧ variables st' = variables st ∧
    operations st' = operations st ∧ sections st' = sections st ∧
    functions st' = functions st ∧ mem st' = mem st ∧
    runtime_error st' = runtime_error st ∧ is_in_try st' = is_in_try st ∧
    runed_functions st' = runed_functions st ∧ console st' = console st ∧
    output st' = output st ∧
    op_store st' !! op = Some (with_index (Some (current_step st)) o) ∧
    ∀ other, other ≠ op → op_store st' !! other = op_store st !! other.
Proof.
  intros Hpc Hop Hcmd Hstack.
  assert (Hrun : run op st = Ok tt (stamped op st)).
  { rewrite (run_popstate op o) by done. by rewrite Hstack. }
  split; [done|]. eexists. split.
  - unfold step. unfold_m. simpl. rewrite Hpc, Hrun. reflexivity.
  - unfold stamped, set_operation_index. unfold_m. simpl.
    rewrite list_lookup_alter_eq, Hop. repeat (split; [done|]).
    intros other Hne. by rewrite list_lookup_alter_ne.
Qed.

Lemma C10_popstate_on_empty_stack_witness :
  ∃ st',
    @step idle_helpers lone_popstate = Ok tt st' ∧
    states st' = [] ∧ current_step st' = 1.
Proof.
  destruct (@C10_popstate_on_empty_stack idle_helpers 0%nat parse_popstate
              lone_popstate)
    as (_ & st' & Hstep & _ & Hstack & Hpc & _).
  - by vm_compute.
  - reflexivity.
  - reflexivity.
  - reflexivity.
  - exists st'. split; [exact Hstep|]. split; [exact Hstack|exact Hpc].
Defined.


(** ** The lookup of a function *)

(** The scan of the used namespaces keeps the last match. *)
Lemma used_namespaces_scan (table : gmap string (list ref)) op_name found l :
  foldl (λ found used_namespace,
           match table !! (used_namespace +:+ "." +:+ op_name) with
           | Some body => Some body
           | None => found
           end) found l =
  match list_find (λ ns, is_Some (table !! (ns +:+ "." +:+ op_name))) (reverse l) with
  | Some (_, ns) => table !! (ns +:+ "." +:+ op_name)
  | None => found
  end.
Proof.
  revert found. induction l as [|ns l IH]; intros found; [done|].
  simpl. rewrite IH, reverse_cons.
  destruct (list_find _ (reverse l)) as [[k ns']|] eqn:Hfind.
  - erewrite list_find_app_l by done. done.
  - rewrite list_find_app_r by done. simpl.
    destruct (table !! (ns +:+ "." +:+ op_name)) as [body|] eqn:Hns.
    + rewrite decide_True by by eexists. simpl. by rewrite Hns.
    + rewrite decide_False by (by intros [? ?]). done.
Qed.

Lemma run_invoke `{Helpers} op o (st : Program) :
  op_store st !! op = Some o →
  command o ∉ "endfunc" :: "popstate" :: "pass" :: builtin_commands →
  current_func st = None →
  run op st =
    match lookup_function (command o) st with
    | Some func_body => call_function op func_body (stamped op st)
    | None =>
        raise_error "SyntaxError"
          ("undefined operation " +:+ dquote +:+ command o +:+ dquote) op
          (stamped op st)
    end.
Proof.
  intros Hop Hcmd Hopen. unfold run, set_operation_index. unfold_m. simpl.
  rewrite list_lookup_alter_eq, Hop. simpl.
  rewrite !not_elem_of_cons in Hcmd. destruct Hcmd as (H1 & H2 & H3 & H4).
  rewrite (bool_decide_eq_false_2 _ H1), (bool_decide_eq_false_2 _ H2).
  simpl. rewrite Hopen. simpl.
  rewrite (bool_decide_eq_false_2 _ H4), (bool_decide_eq_false_2 _ H3).
  unfold stamped, set_operation_index, modify, lookup_function. simpl.
  match goal with |- match ?found with _ => _ end _ = _ => by destruct found end.
Qed.

(** C2 (amended).  A command that is no builtin is resolved (a) under the
    name qualified by the current namespace; failing that (b) under the
    name qualified by the used namespace declared last among those that
    define it, a later one overriding an earlier one, when the body found
    there is not empty; otherwise (c), when no used namespace defines it or
    the last one that does gives it an empty body, under the bare name;
    and when no name resolves [run] raises [SyntaxError] with the message
    [undefined operation "<name>"] against the operation. *)
Theorem C2_resolution_order `{Helpers} (st : Program) (name : string) :
  let qualified ns := ns +:+ "." +:+ name in
  (∀ body,
     functions st !! (current_namespace st +:+ name) = Some body →
     lookup_function name st = Some body) ∧
  (functions st !! (current_namespace st +:+ name) = None →
   (∀ before ns after body,
      used_namespaces st = before ++ ns :: after →
      functions st !! qualified ns = Some body →
      (∀ ns', ns' ∈ after → functions st !! qualified ns' = None) →
      lookup_function name st =
        match body with
        | [] => functions st !! name
        | _ :: _ => Some body
        end) ∧
   ((∀ ns, ns ∈ used_namespaces st → functions st !! qualified ns = None) →
    lookup_function name st = functions st !! name)) ∧
  (∀ op o,
     op_store st !! op = Some o →
     command o = name →
     name ∉ "endfunc" :: "popstate" :: "pass" :: builtin_commands →
     current_func st = None →
     (∀ body, lookup_function name st = Some body →
        run op st = call_function op body (stamped op st)) ∧
     (lookup_function name st = None →
        run op st =
          raise_error "SyntaxError"
            ("undefined operation " +:+ dquote +:+ name +:+ dquote) op
            (stamped op st))).
Proof.
  cbv zeta beta. split; [|split].
  - intros body Hcur. unfold lookup_function. by rewrite Hcur.
  - intros Hcur. unfold lookup_function. rewrite Hcur.
    rewrite used_namespaces_scan. split.
    + intros before ns after body Hused Hns Hafter.
      rewrite Hused, reverse_app, reverse_cons, <- app_assoc.
      rewrite list_find_app_r.
      2: { apply list_find_None, Forall_forall. intros ns' Hin.
           apply elem_of_reverse, Hafter in Hin.
           rewrite Hin. by intros [? ?]. }
      simpl. rewrite Hns.
      rewrite decide_True by by eexists. simpl. rewrite Hns.
      by destruct body.
    + intros Hnone.
      rewrite (proj2 (list_find_None _ _)); [done|].
      apply Forall_forall. intros ns' Hin.
      apply elem_of_reverse, Hnone in Hin. rewrite Hin. by intros [? ?].
  - intros op o Hop <- Hcmd Hopen.
    rewrite (run_invoke op o) by done. split.
    + by intros body ->.
    + by intros ->.
Qed.

Lemma C2_resolution_order_witness :
  lookup_function "f" two_namespaces = Some [1%nat].
Proof.
  destruct (@C2_resolution_order idle_helpers two_namespaces "f")
    as (_ & Hused & _).
  destruct (Hused eq_refl) as (Hlast & _).
  apply (Hlast ["a"] "b" [] [1%nat]).
  - reflexivity.
  - by vm_compute.
  - intros ns' Hin. by apply elem_of_nil in Hin.
Defined.

(** The claim C2 as stated fails: with the used namespaces [a] and [b],
    declared in this order and both defining [f], the code resolves [f] to
    the body of [b.f], not to the first match [a.f]. *)
Lemma C2_counterexample :
  lookup_function_first_match "f" two_namespaces = Some [0%nat] ∧
  lookup_function "f" two_namespaces = Some [1%nat] ∧
  lookup_function "f" two_namespaces ≠
    lookup_function_first_match "f" two_namespaces.
Proof. by vm_compute. Qed.

(** A function of a used namespace whose body is empty counts as not
    found: the lookup goes on to the bare name. *)
Lemma lookup_function_skips_empty_body :
  functions empty_body !! "a.f" = Some [] ∧
  lookup_function "f" empty_body = None.
Proof. by vm_compute. Qed.

(** An undefined operation met inside a try: one turn of the main loop
    leaves the program counter on the position recorded for the label of
    the try, with the error data in mem and the try-context disarmed. *)
Lemma step_undefined_operation_caught `{Helpers} op o (st : Program)
    label new_step :
  py_getitem (operations st) (current_step st) = Some op →
  op_store st !! op = Some o →
  command o ∉ "endfunc" :: "popstate" :: "pass" :: builtin_commands →
  current_func st = None →
  lookup_function (command o) st = None →
  is_in_try st = Some label →
  sections st !! label = Some new_step →
  ∃ st',
    step st = Ok tt st' ∧
    current_step st' = new_step ∧
    is_in_try st' = None ∧
    mem st' = VDict (length (obj_store st)) ∧
    obj_store st' !! length (obj_store st) =
      Some (ODict {[ "type" := VStr "SyntaxError";
                     "message" :=
                       VStr ("undefined operation " +:+ dquote +:+ command o
                               +:+ dquote);
                     "index" := VInt (current_step st) ]}).
Proof.
  intros Hpc Hop Hcmd Hopen Hnone Htry Hsec.
  unfold step. unfold_m. simpl. rewrite Hpc.
  rewrite (run_invoke op o), Hnone by done.
  erewrite (raise_error_armed _ _ op (stamped op st) label new_step).
  - eexists. split; [done|]. simpl. split; [lia|]. split; [done|].
    split; [done|]. by rewrite lookup_app_r, Nat.sub_diag.
  - done.
  - done.
  - unfold stamped, set_operation_index, modify. simpl.
    by rewrite list_lookup_alter_eq, Hop.
  - done.
Qed.
(** ** The call stack *)

Lemma exec_func_guarded func_body (st : Program) entries :
  dict_store st !! variables st = Some entries →
  current_step st ∈ runed_functions st →
  exec_func func_body true st =
    Ok tt (put_states
             (states st ++ [mkFrame (current_step st) (length (dict_store st))])
             (put_dict_store (dict_store st ++ [entries]) st)).
Proof.
  intros Hvars Hin. unfold exec_func, copy_dict. unfold_m. simpl.
  rewrite Hvars. simpl. by rewrite bool_decide_eq_true_2.
Qed.

(** A call dispatched by [run], without arguments, at a call site that
    has already been run: the mem register gets the empty string, the
    frame is pushed, and nothing is spliced. *)
Lemma run_call_guarded `{Helpers} op o func_body (st : Program) :
  op_store st !! op = Some o →
  command o ∉ "endfunc" :: "popstate" :: "pass" :: builtin_commands →
  current_func st = None →
  lookup_function (command o) st = Some func_body →
  args_str o = EmptyString →
  is_Some (dict_store st !! variables st) →
  current_step st ∈ runed_functions st →
  ∃ st',
    run op st = Ok tt st' ∧
    operations st' = operations st ∧
    sections st' = sections st ∧
    runed_functions st' = runed_functions st ∧
    mem st' = VStr EmptyString ∧
    states st' =
      states st ++ [mkFrame (current_step st) (length (dict_store st))].
Proof.
  intros Hop Hcmd Hopen Hfound Hargs [entries Hvars] Hin.
  rewrite (run_invoke op o) by done. rewrite Hfound.
  unfold call_function, stamped, set_operation_index. unfold_m. simpl.
  rewrite list_lookup_alter_eq, Hop. simpl. rewrite Hargs. simpl.
  match goal with |- context [exec_func func_body true ?s] =>
    rewrite (exec_func_guarded func_body s entries) by done end.
  eexists. split; [done|]. done.
Qed.

(** C5.  When [exec_func] is entered for a call ([with_state] true, as
    [run] enters it for every call) at a program counter that is already
    among the call sites run, it only pushes the call frame: the operation
    stream, the section table, the operation store and the list of call
    sites are as before, so the function body is not spliced again.  So
    does a call that the dispatcher makes at such a call site. *)
Theorem C5_reentrancy_guard `{Helpers} func_body (st : Program) :
  is_Some (dict_store st !! variables st) →
  current_step st ∈ runed_functions st →
  (∃ st',
     exec_func func_body true st = Ok tt st' ∧
     operations st' = operations st ∧
     sections st' = sections st ∧
     op_store st' = op_store st ∧
     runed_functions st' = runed_functions st ∧
     states st' =
       states st ++ [mkFrame (current_step st) (length (dict_store st))]) ∧
  (∀ op o,
     op_store st !! op = Some o →
     command o ∉ "endfunc" :: "popstate" :: "pass" :: builtin_commands →
     current_func st = None →
     lookup_function (command o) st = Some func_body →
     args_str o = EmptyString →
     ∃ st',
       run op st = Ok tt st' ∧
       operations st' = operations st ∧
       sections st' = sections st).
Proof.
  intros Hvars Hin. split.
  - destruct Hvars as [entries Hvars].
    eexists. split; [by eapply exec_func_guarded|done].
  - intros op o Hop Hcmd Hopen Hfound Hargs.
    destruct (run_call_guarded op o func_body st) as (st' & Hrun & Hops & Hsec & _);
      [done..|].
    by exists st'.
Qed.

Lemma C5_reentrancy_guard_witness :
  ∃ st', exec_func [1%nat] true revisited = Ok tt st' ∧
         operations st' = operations revisited.
Proof.
  destruct (@C5_reentrancy_guard idle_helpers [1%nat] revisited)
    as ((st' & Hrun & Hops & _) & _).
  - by eexists.
  - vm_compute. apply list_elem_of_here.
  - by exists st'.
Defined.

Lemma removelast_length {A} (l : list A) :
  length (removelast l) = pred (length l).
Proof. rewrite removelast_firstn_len, length_take. lia. Qed.

(** What the splicing loop leaves alone. *)
Lemma exec_func_loop_frame func_body i flag (st : Program) :
  let st' := final_state (exec_func_loop func_body i flag st) in
  states st' = states st ∧ dict_store st' = dict_store st ∧
  variables st' = variables st ∧ current_step st' = current_step st ∧
  runed_functions st' = runed_functions st ∧
  length (op_store st') = length (op_store st).
Proof.
  revert i flag st. induction func_body as [|func_op rest IH]; intros i flag st.
  { done. }
  simpl. unfold set_operation_index. unfold_m. simpl.
  destruct (alter _ func_op (op_store st) !! func_op) as [o|] eqn:Ho; simpl.
  2: { by rewrite length_alter. }
  destruct (bool_decide (command o = "section") && negb flag).
  - destruct (args o) as [|section_name ?]; simpl.
    { by rewrite length_alter. }
    match goal with |- context [exec_func_loop rest i flag ?s] =>
      destruct (IH i flag s) as (-> & -> & -> & -> & -> & ->) end.
    simpl. by rewrite length_alter.
  - match goal with |- context [exec_func_loop rest ?j ?f ?s] =>
      destruct (IH j f s) as (-> & -> & -> & -> & -> & ->) end.
    simpl. by rewrite length_alter.
Qed.

(** A call pushes one frame whose [vars] is a new dict with the entries of
    [self.variables]. *)
Lemma exec_func_call func_body (st st' : Program) :
  exec_func func_body true st = Ok tt st' →
  ∃ entries,
    dict_store st !! variables st = Some entries ∧
    states st' = states st ++ [mkFrame (current_step st) (length (dict_store st))] ∧
    dict_store st' = dict_store st ++ [entries] ∧
    variables st' = variables st ∧
    current_step st' = current_step st.
Proof.
  unfold exec_func, copy_dict. unfold_m. simpl.
  destruct (dict_store st !! variables st) as [entries|]; simpl; [|done].
  intros Hrun. exists entries. split; [done|].
  destruct (bool_decide (current_step st ∈ runed_functions st)); simpl in Hrun.
  { by inversion Hrun. }
  match type of Hrun with context [exec_func_loop func_body ?j ?f ?s] =>
    pose proof (exec_func_loop_frame func_body j f s) as Hframe;
    destruct (exec_func_loop func_body j f s) as [i st1|?|?] end; [|done..].
  simpl in Hframe. destruct Hframe as (Hst & Hd & Hv & Hpc & _).
  unfold new_op in Hrun. simpl in Hrun. inversion Hrun; subst st'. simpl.
  by rewrite Hst, Hd, Hv, Hpc.
Qed.

(** A splice without call state pushes nothing. *)
Lemma exec_func_include func_body (st st' : Program) :
  exec_func func_body false st = Ok tt st' →
  states st' = states st ∧ dict_store st' = dict_store st ∧
  variables st' = variables st.
Proof.
  unfold exec_func. unfold_m. simpl. rewrite andb_false_r.
  pose proof (exec_func_loop_frame func_body (current_step st) false st) as Hframe.
  destruct (exec_func_loop _ _ _ _) as [i st1|?|?]; [|done..].
  simpl in Hframe. destruct Hframe as (Hst & Hd & Hv & _).
  intros Hrun. inversion Hrun; subst st'. done.
Qed.

(** C6 (amended).  Along any execution the depth of the call stack is the
    depth at the start, plus the number of calls entered through
    [exec_func] (one frame each, also when the guard on the call site skips
    the splice), minus the number of [popstate] operations run with a frame
    on the stack (one frame each).  Code spliced without call state pushes
    no frame, and a [popstate] met with an empty stack pops none. *)
Theorem C6_call_stack_depth `{Helpers} (st st' : Program) pushes pops :
  stack_trace st pushes pops st' →
  (length (states st') + pops = length (states st) + pushes)%nat.
Proof.
  induction 1 as [|pushes pops st1 st2 body _ IH Hcall
                  |pushes pops st1 st2 body _ IH Hinc
                  |pushes pops st1 st2 op o _ IH Hop Hcmd Hne Hrun
                  |pushes pops st1 st2 op o _ IH Hop Hcmd Hnil Hrun
                  |pushes pops st1 st2 _ IH Hsame].
  - done.
  - apply exec_func_call in Hcall as (entries & _ & -> & _).
    rewrite length_app. simpl. lia.
  - apply exec_func_include in Hinc as (-> & _). done.
  - rewrite (run_popstate_pop op o) in Hrun by done.
    inversion Hrun; subst st2.
    change (states (put_states ?l _)) with l. rewrite removelast_length.
    destruct (states st1); [done|]. simpl in *. lia.
  - rewrite (run_popstate op o), Hnil in Hrun by done.
    inversion Hrun; subst st2.
    change (states (stamped op st1)) with (states st1). exact IH.
  - by rewrite Hsame.
Qed.

Lemma C6_call_stack_depth_witness :
  (length (states after_call) + 1 = length (states before_call) + 1)%nat.
Proof.
  apply (@C6_call_stack_depth idle_helpers before_call after_call 1 1).
  eapply (trace_popstate _ _ _ during_call after_call 2%nat parse_popstate).
  - apply (trace_call _ 0 0 before_call during_call [1%nat]);
      [apply trace_start|]. vm_compute. reflexivity.
  - by vm_compute.
  - reflexivity.
  - by vm_compute.
  - by vm_compute.
Defined.

(** The claim C6 as stated fails on its last clause: a [popstate] met with
    an empty call stack pops no frame. *)
Lemma C6_counterexample :
  ¬ (∀ (st st' : Program) op o,
       op_store st !! op = Some o →
       command o = "popstate" →
       @run idle_helpers op st = Ok tt st' →
       length (states st) = S (length (states st'))).
Proof.
  intros Hclaim.
  specialize (Hclaim lone_popstate _ 0%nat parse_popstate eq_refl eq_refl eq_refl).
  vm_compute in Hclaim. discriminate Hclaim.
Qed.

(** ** Call frames and the variable store *)






(** ** Insertion into the operation stream *)

Section py_list_facts.
Context {A : Type}.
Implicit Types (l : list A) (x : A).

Lemma py_insert_length p x l : length (py_insert p x l) = S (length l).
Proof.
  unfold py_insert. cbv zeta. rewrite length_app. simpl.
  rewrite length_take, length_drop. case_bool_decide; lia.
Qed.

Lemma py_getitem_nonneg l s : 0 ≤ s → py_getitem l s = l !! Z.to_nat s.
Proof.
  intros Hs. unfold py_getitem.
  rewrite (bool_decide_eq_false_2 (s < 0)) by lia.
  by rewrite bool_decide_eq_true_2.
Qed.

(** The operations behind the insertion point move up by one. *)
Lemma py_getitem_insert_behind p x l s :
  0 ≤ p → p ≤ s →
  py_getitem (py_insert p x l) (s + 1) = py_getitem l s.
Proof.
  intros Hp Hs. rewrite !py_getitem_nonneg by lia. unfold py_insert.
  rewrite (bool_decide_eq_false_2 (p < 0)) by lia.
  set (j := Z.to_nat (Z.min p (Z.of_nat (length l)))).
  assert (j ≤ length l)%nat by lia.
  assert (j ≤ Z.to_nat s)%nat by lia.
  rewrite lookup_app_r; rewrite length_take; [|lia].
  replace (Z.to_nat (s + 1) - j `min` length l)%nat
    with (S (Z.to_nat s - j)) by lia.
  simpl. rewrite lookup_drop. f_equal. lia.
Qed.

(** The operations before the insertion point stay. *)
Lemma py_getitem_insert_before p x l s :
  0 ≤ s → s < p → s < Z.of_nat (length l) →
  py_getitem (py_insert p x l) s = py_getitem l s.
Proof.
  intros Hs Hp Hlen. rewrite !py_getitem_nonneg by lia. unfold py_insert.
  rewrite (bool_decide_eq_false_2 (p < 0)) by lia.
  rewrite lookup_app_l; [|rewrite length_take; lia].
  apply lookup_take_lt. lia.
Qed.

(** The inserted operation sits at the insertion point. *)
Lemma py_getitem_insert_at p x l :
  0 ≤ p → p ≤ Z.of_nat (length l) →
  py_getitem (py_insert p x l) p = Some x.
Proof.
  intros Hp Hlen. rewrite py_getitem_nonneg by lia. unfold py_insert.
  rewrite (bool_decide_eq_false_2 (p < 0)) by lia.
  rewrite Z.min_l by lia.
  rewrite lookup_app_r; rewrite length_take; [|lia].
  by replace (Z.to_nat p - Z.to_nat p `min` length l)%nat with 0%nat by lia.
Qed.
End py_list_facts.

Lemma update_section_indexes_lookup after_index (st : Program) label :
  sections (update_section_indexes after_index st) !! label =
    (λ v, if bool_decide (v > after_index) then v + 1 else v) <$>
      sections st !! label.
Proof. unfold update_section_indexes. simpl. by rewrite lookup_fmap. Qed.

(** One insertion: the entries behind the insertion point go up by one and
    address the operation they addressed; the others stay. *)
Lemma insert_operation_shift at_index op (st : Program) label s :
  0 ≤ at_index →
  sections st !! label = Some s →
  let st' := insert_operation at_index op st in
  (at_index < s →
     sections st' !! label = Some (s + 1) ∧
     py_getitem (operations st') (s + 1) = py_getitem (operations st) s) ∧
  (s ≤ at_index → sections st' !! label = Some s).
Proof.
  intros Hat Hs st'. subst st'. unfold insert_operation.
  rewrite update_section_indexes_lookup. simpl. rewrite Hs. simpl. split.
  - intros Hlt. rewrite bool_decide_eq_true_2 by lia. split; [done|].
    apply py_getitem_insert_behind; lia.
  - intros Hle. by rewrite bool_decide_eq_false_2 by lia.
Qed.

Lemma body_labels_stamp store op i func_body flag :
  body_labels (alter (with_index i) op store) func_body flag =
  body_labels store func_body flag.
Proof.
  revert flag. induction func_body as [|func_op rest IH]; intros flag; [done|].
  simpl. rewrite list_lookup_alter. case_decide as Heq.
  - subst func_op. destruct (store !! op) as [o|]; simpl; [|done].
    destruct (bool_decide (command o = "section") && negb flag).
    + destruct (args o); [done|]. by rewrite IH.
    + apply IH.
  - destruct (store !! func_op) as [o|]; simpl; [|done].
    destruct (bool_decide (command o = "section") && negb flag).
    + destruct (args o); [done|]. by rewrite IH.
    + apply IH.
Qed.

(** The splicing loop, for the labels that the body does not declare. *)
Lemma exec_func_loop_shift func_body i flag (st : Program) i' st' :
  0 ≤ i + 1 →
  exec_func_loop func_body i flag st = Ok i' st' →
  0 ≤ i' - i ∧
  Z.of_nat (length (operations st')) = Z.of_nat (length (operations st)) + (i' - i) ∧
  ∀ label s,
    sections st !! label = Some s →
    label ∉ body_labels (op_store st) func_body flag →
    (i + 1 < s →
       sections st' !! label = Some (s + (i' - i)) ∧
       py_getitem (operations st') (s + (i' - i)) = py_getitem (operations st) s) ∧
    (s ≤ i + 1 → sections st' !! label = Some s).
Proof.
  revert i flag st. induction func_body as [|func_op rest IH]; intros i flag st Hi.
  { simpl. intros [= <- <-]. rewrite Z.sub_diag. split; [done|]. split; [lia|].
    intros label s Hs _. rewrite Z.add_0_r. done. }
  simpl. unfold set_operation_index. unfold_m. simpl.
  rewrite list_lookup_alter_eq.
  destruct (op_store st !! func_op) as [o|] eqn:Hop; simpl; [|done].
  destruct (bool_decide (command o = "section") && negb flag) eqn:Hsec.
  - destruct (args o) as [|section_name more] eqn:Hargs; simpl; [done|].
    intros Hloop. apply IH in Hloop as (Hk & Hlen & Hshift); [|done].
    split; [done|]. split; [done|].
    intros label s Hs Hnot. simpl in Hshift.
    rewrite body_labels_stamp in Hshift.
    apply not_elem_of_cons in Hnot as [Hne Hnot].
    apply Hshift; [|done]. by rewrite lookup_insert_ne.
  - intros Hloop. apply IH in Hloop as (Hk & Hlen & Hshift); [|lia].
    simpl in Hlen, Hshift. rewrite py_insert_length in Hlen.
    rewrite body_labels_stamp in Hshift.
    split; [lia|]. split; [lia|].
    intros label s Hs Hnot.
    pose proof (insert_operation_shift (i + 1) func_op
      (put_op_store (alter (with_index (Some (current_step st))) func_op (op_store st)) st)
      label s Hi Hs) as [Hbehind Hbefore].
    unfold func_toggle in Hnot. split.
    + intros Hlt. destruct (Hbehind Hlt) as [Hs1 Hop1].
      destruct (Hshift label (s + 1) Hs1 Hnot) as [Hgo _].
      destruct Hgo as [Hs' Hop']; [lia|].
      replace (s + (i' - i)) with (s + 1 + (i' - (i + 1))) by lia.
      split; [done|]. by rewrite Hop'.
    + intros Hle.
      destruct (Hshift label s (Hbefore Hle) Hnot) as [_ Hstay].
      apply Hstay. lia.
Qed.

(** The whole of [exec_func]: the loop, the [popstate] marker and the
    guard on the call site. *)
Lemma exec_func_shift func_body with_state (st st' : Program) :
  0 ≤ current_step st + 1 →
  exec_func func_body with_state st = Ok tt st' →
  let p := current_step st + 1 in
  let k := Z.of_nat (length (operations st')) - Z.of_nat (length (operations st)) in
  0 ≤ k ∧
  ∀ label s,
    sections st !! label = Some s →
    label ∉ body_labels (op_store st) func_body false →
    (p < s →
       sections st' !! label = Some (s + k) ∧
       py_getitem (operations st') (s + k) = py_getitem (operations st) s) ∧
    (s ≤ p → sections st' !! label = Some s).
Proof.
  intros Hpc. unfold exec_func, copy_dict, new_op. unfold_m.
  destruct with_state; simpl.
  - destruct (dict_store st !! variables st) as [entries|]; simpl; [|done].
    destruct (bool_decide (current_step st ∈ runed_functions st)); simpl.
    { intros [= <-]. simpl. rewrite Z.sub_diag. split; [done|].
      intros label s Hs _. by rewrite Z.add_0_r. }
    match goal with |- context [exec_func_loop ?b ?j ?f ?s] =>
      destruct (exec_func_loop b j f s) as [i st1|?|?] eqn:Hloop end;
      [|intros [=]..].
    intros [= <-].
    apply exec_func_loop_shift in Hloop as (Hk & Hlen & Hshift); [|done].
    simpl in Hlen, Hshift |- *. rewrite py_insert_length.
    split; [lia|]. intros label s Hs Hnot.
    destruct (Hshift label s Hs Hnot) as [Hbehind Hbefore].
    replace (Z.of_nat (S (length (operations st1))) - Z.of_nat (length (operations st)))
      with (i - current_step st + 1) by lia.
    split.
    + intros Hlt. destruct (Hbehind Hlt) as [Hs1 Hop1].
      pose proof (insert_operation_shift (i + 1) (length (op_store st1))
        (put_op_store (op_store st1 ++ [parse_popstate]) st1) label
        (s + (i - current_step st))) as Hmark.
      destruct Hmark as [Hgo _]; [lia|exact Hs1|].
      destruct Hgo as [Hs' Hop']; [lia|].
      rewrite Z.add_assoc. split; [exact Hs'|].
      etrans; [exact Hop'|exact Hop1].
    + intros Hle.
      pose proof (insert_operation_shift (i + 1) (length (op_store st1))
        (put_op_store (op_store st1 ++ [parse_popstate]) st1) label s) as Hmark.
      destruct Hmark as [_ Hstay]; [lia|by apply Hbefore|].
      apply Hstay. lia.
  - rewrite andb_false_r.
    match goal with |- context [exec_func_loop ?b ?j ?f ?s] =>
      destruct (exec_func_loop b j f s) as [i st1|?|?] eqn:Hloop end;
      [|intros [=]..].
    intros [= <-].
    apply exec_func_loop_shift in Hloop as (Hk & Hlen & Hshift); [|done].
    replace (Z.of_nat (length (operations st1)) - Z.of_nat (length (operations st)))
      with (i - current_step st) by lia.
    done.
Qed.

(** ** The link pass *)

Lemma op_text_Some (st : Program) pos op o :
  operations st !! pos = Some op →
  op_store st !! op = Some o →
  op_text st pos = Some (command o, args o).
Proof. intros Hpos Hop. unfold op_text. rewrite Hpos. simpl. by rewrite Hop. Qed.

Lemma flag_after_agree (st st2 : Program) from :
  (∀ pos, (from ≤ pos)%nat → op_text st2 pos = op_text st pos) →
  ∀ count pos flag, (from ≤ pos)%nat →
    flag_after st2 pos count flag = flag_after st pos count flag.
Proof.
  intros Hagree count. induction count as [|count IH]; intros pos flag Hpos; [done|].
  simpl. rewrite Hagree by done. apply IH. lia.
Qed.

(** A declaration behind the current position is a declaration for the
    rest of the pass, and conversely. *)
Lemma declares_next (st st2 : Program) from flag pos label :
  (∀ pos, (S from ≤ pos)%nat → op_text st2 pos = op_text st pos) →
  (from < pos)%nat →
  declares st from flag pos label ↔
  declares st2 (S from)
    (match op_text st from with
     | Some (cmd, _) => func_toggle flag cmd
     | None => flag
     end) pos label.
Proof.
  intros Hagree Hlt. unfold declares.
  rewrite Hagree by lia.
  rewrite (flag_after_agree st st2 (S from)) by (done || lia).
  replace (pos - from)%nat with (S (pos - S from)) by lia. simpl.
  split; intros (? & ? & ?); (split; [lia|done]).
Qed.

Lemma labelled_next (st st2 : Program) from flag :
  (∀ pos, (S from ≤ pos)%nat → op_text st2 pos = op_text st pos) →
  labelled_from st from flag →
  labelled_from st2 (S from)
    (match op_text st from with
     | Some (cmd, _) => func_toggle flag cmd
     | None => flag
     end).
Proof.
  intros Hagree Hlab pos Hpos Htext.
  rewrite (flag_after_agree st st2 (S from)) by (done || lia).
  rewrite Hagree in Htext by done.
  specialize (Hlab pos ltac:(lia) Htext).
  by replace (pos - from)%nat with (S (pos - S from)) in Hlab by lia.
Qed.

(** Stamping an index changes no command and no argument. *)
Lemma op_text_stamp (st : Program) op i pos :
  op_text (put_op_store (alter (with_index i) op (op_store st)) st) pos =
  op_text st pos.
Proof.
  unfold op_text. simpl. destruct (operations st !! pos) as [r|]; [|done].
  simpl. rewrite list_lookup_alter. case_decide; [subst r|done].
  by destruct (op_store st !! op).
Qed.

Lemma py_setitem_nat {A} (l : list A) (n : nat) x :
  (n < length l)%nat →
  py_setitem l (Z.of_nat n) x = Some (<[n := x]> l).
Proof.
  intros Hn. unfold py_setitem.
  rewrite (bool_decide_eq_false_2 (Z.of_nat n < 0)) by lia.
  rewrite bool_decide_eq_true_2 by lia. by rewrite Nat2Z.id.
Qed.

Lemma link_post_step (st st2 st' : Program) n flag :
  length (operations st2) = length (operations st) →
  (∀ pos, (pos < n)%nat → operations st2 !! pos = operations st !! pos) →
  (∀ pos, (S n ≤ pos)%nat → op_text st2 pos = op_text st pos) →
  (∀ pos, (S n ≤ pos)%nat → operations st2 !! pos = operations st !! pos) →
  (∀ op o, op_store st !! op = Some o →
     ∃ o', op_store st2 !! op = Some o' ∧
           command o' = command o ∧ args o' = args o) →
  (∀ label,
     sections st2 !! label = sections st !! label ∨
     (declares st n flag n label ∧
      sections st2 !! label = Some (Z.of_nat n + 1))) →
  (∀ label, declares st n flag n label →
     op_text st2 n = Some ("pass", []) ∧
     sections st2 !! label = Some (Z.of_nat n + 1)) →
  ((∀ label, ¬ declares st n flag n label) →
     operations st2 !! n = operations st !! n) →
  link_post st2 (S n)
    (match op_text st n with
     | Some (cmd, _) => func_toggle flag cmd
     | None => flag
     end) st' →
  link_post st n flag st'.
Proof.
  intros Hlen Hprefix Hagree Hrest Hstore Htable Hhere Hkeep
    (Hlen' & Hprefix' & Hstore' & Htable' & Hdecl' & Hkeep').
  split; [congruence|]. split; [|split; [|split; [|split]]].
  - intros pos Hpos. rewrite Hprefix' by lia. by apply Hprefix.
  - intros op o Hop.
    destruct (Hstore op o Hop) as (o2 & Hop2 & Hc2 & Ha2).
    destruct (Hstore' op o2 Hop2) as (o' & Hop' & Hc' & Ha').
    exists o'. split; [done|]. split; congruence.
  - intros label. destruct (Htable' label) as [Hsame|(pos & Hpos & Hval)].
    + rewrite Hsame. destruct (Htable label) as [?|[Hn Hval]]; [by left|].
      right. by exists n.
    + right. exists pos. split; [|done].
      assert (n < pos)%nat as Hlt by (destruct Hpos; lia).
      by apply (proj2 (declares_next st st2 n flag pos label Hagree Hlt)).
  - intros pos label Hpos.
    destruct (decide (pos = n)) as [->|Hne].
    + destruct (Hhere label Hpos) as [Htext Hval]. split.
      * unfold op_text in Htext |- *. rewrite Hprefix' by lia.
        destruct (operations st2 !! n) as [r|]; [|done]. simpl in *.
        destruct (op_store st2 !! r) as [o2|] eqn:Hr; [|done].
        destruct (Hstore' r o2 Hr) as (o' & -> & Hc' & Ha'). simpl in *.
        congruence.
      * destruct (Htable' label) as [Hsame|(pos & Hpos' & Hval')].
        -- exists n. split; [done|]. split; [done|]. congruence.
        -- assert (n < pos)%nat as Hlt by (destruct Hpos'; lia).
           exists pos. split; [lia|]. split; [|done].
           by apply (proj2 (declares_next st st2 n flag pos label Hagree Hlt)).
    + assert (n < pos)%nat as Hlt by (destruct Hpos; lia).
      apply (proj1 (declares_next st st2 n flag pos label Hagree Hlt)) in Hpos.
      destruct (Hdecl' pos label Hpos) as [Htext (last & Hle & Hlast & Hval)].
      split; [done|]. exists last. split; [done|]. split; [|done].
      assert (n < last)%nat as Hlt' by lia.
      by apply (proj2 (declares_next st st2 n flag last label Hagree Hlt')).
  - intros pos Hpos Hnone.
    destruct (decide (pos = n)) as [->|Hne].
    + rewrite Hprefix' by lia. by apply Hkeep.
    + assert (n < pos)%nat as Hlt by lia.
      rewrite Hkeep'; [apply Hrest; lia|lia|].
      intros label Hdecl. apply (Hnone label).
      by apply (proj2 (declares_next st st2 n flag pos label Hagree Hlt)).
Qed.

Lemma load_sections_spec todo :
  ∀ n flag (st : Program),
    length (operations st) = (n + todo)%nat →
    ops_allocated st →
    labelled_from st n flag →
    ∃ st', load_sections todo (Z.of_nat n) flag st = Ok tt st' ∧
           link_post st n flag st'.
Proof.
  induction todo as [|todo IH]; intros n flag st Hlen Halloc Hlab.
  { exists st. split; [done|]. split; [done|]. split; [done|].
    split; [by eauto|]. split; [by left|]. split; [|done].
    intros pos label (Hle & [more Htext] & _). exfalso.
    unfold op_text in Htext. rewrite lookup_ge_None_2 in Htext by lia. done. }
  destruct (lookup_lt_is_Some_2 (operations st) n) as [op Hop]; [lia|].
  assert (op < length (op_store st))%nat as Hlt.
  { unfold ops_allocated in Halloc. rewrite Forall_forall in Halloc.
    apply Halloc. by eapply list_elem_of_lookup_2. }
  destruct (lookup_lt_is_Some_2 (op_store st) op Hlt) as [o Ho].
  pose proof (op_text_Some st n op o Hop Ho) as Htext.
  set (st_s := put_op_store
                 (alter (with_index (Some (current_step st))) op (op_store st)) st).
  assert (Hagree_s : ∀ pos, op_text st_s pos = op_text st pos)
    by (intros; apply op_text_stamp).
  assert (Hstore_s : ∀ r x, op_store st !! r = Some x →
            ∃ x', op_store st_s !! r = Some x' ∧
                  command x' = command x ∧ args x' = args x).
  { intros r x Hr. simpl. rewrite list_lookup_alter. case_decide.
    - subst r. rewrite Hr. by eexists.
    - by eexists. }
  assert (Halloc_s : ops_allocated st_s).
  { unfold ops_allocated. simpl. by rewrite length_alter. }
  (* the cases in which position [n] stays as it is *)
  assert (Hskip : ∀ flag',
            flag' = func_toggle flag (command o) →
            (command o = "section" → flag = true) →
            ∃ st', load_sections todo (Z.of_nat n + 1) flag' st_s = Ok tt st' ∧
                   link_post st n flag st').
  { intros flag' -> Hnot.
    replace (Z.of_nat n + 1) with (Z.of_nat (S n)) by lia.
    destruct (IH (S n) (func_toggle flag (command o)) st_s) as (st' & Hrun & Hpost).
    - simpl. lia.
    - done.
    - pose proof (labelled_next st st_s n flag (λ pos _, Hagree_s pos) Hlab) as Hl.
      by rewrite Htext in Hl.
    - exists st'. split; [done|].
      apply (link_post_step st st_s st' n flag); try done.
      + by left.
      + intros label (_ & [more Htext'] & Hflag). exfalso.
        rewrite Htext in Htext'. simpl in Hflag.
        replace (n - n)%nat with 0%nat in Hflag by lia. simpl in Hflag.
        inversion Htext' as [[Hcmd Hargs]]. specialize (Hnot Hcmd). congruence.
      + by rewrite Htext. }
  simpl. unfold set_operation_index. unfold_m. simpl.
  rewrite py_getitem_nonneg, Nat2Z.id, Hop by lia. simpl.
  rewrite list_lookup_alter_eq, Ho. simpl. fold st_s.
  destruct (bool_decide (command o = "section")) eqn:Hsec.
  - apply bool_decide_eq_true_1 in Hsec.
    destruct flag.
    { apply Hskip; [|done]. unfold func_toggle. by rewrite Hsec. }
    destruct (args o) as [|arg more] eqn:Hargs.
    { specialize (Hlab n ltac:(lia)). rewrite Htext, Hsec in Hlab.
      specialize (Hlab eq_refl).
      replace (n - n)%nat with 0%nat in Hlab by lia. done. }
    unfold new_op. simpl.
    rewrite py_setitem_nat by lia. simpl.
    replace (Z.of_nat n + 1) with (Z.of_nat (S n)) by lia.
    match goal with |- context [load_sections todo _ false ?s] => set (st1 := s) end.
    assert (Hdecl_n : declares st n false n arg).
    { split; [done|]. rewrite Htext, Hsec. split; [by eexists|].
      by replace (n - n)%nat with 0%nat by lia. }
    assert (Hagree1 : ∀ pos, (S n ≤ pos)%nat → op_text st1 pos = op_text st pos).
    { intros pos Hpos. rewrite <- Hagree_s. unfold op_text. simpl.
      rewrite list_lookup_insert_ne by lia.
      destruct (operations st !! pos) as [r|] eqn:Hr; [|done]. simpl.
      rewrite lookup_app_l; [done|]. rewrite length_alter.
      unfold ops_allocated in Halloc. rewrite Forall_forall in Halloc.
      apply Halloc. by eapply list_elem_of_lookup_2. }
    destruct (IH (S n) false st1) as (st' & Hrun & Hpost).
    + simpl. rewrite length_insert. lia.
    + unfold ops_allocated. simpl. rewrite length_app, length_alter. simpl.
      apply Forall_insert.
      * unfold ops_allocated in Halloc. eapply Forall_impl; [exact Halloc|].
        simpl. intros; lia.
      * lia.
    + pose proof (labelled_next st st1 n false Hagree1 Hlab) as Hl.
      rewrite Htext, Hsec in Hl. exact Hl.
    + exists st'. split; [done|].
      apply (link_post_step st st1 st' n false).
      * simpl. by rewrite length_insert.
      * intros pos Hpos. simpl. rewrite list_lookup_insert_ne by lia. done.
      * done.
      * intros pos Hpos. simpl. rewrite list_lookup_insert_ne by lia. done.
      * intros r x Hr. destruct (Hstore_s r x Hr) as (x' & Hx' & ? & ?).
        exists x'. split; [|done]. simpl. by apply lookup_app_l_Some.
      * intros label. simpl. destruct (decide (arg = label)) as [<-|Hne].
        -- right. split; [done|]. rewrite lookup_insert_eq. f_equal. lia.
        -- left. by rewrite lookup_insert_ne.
      * intros label (_ & [more' Htext'] & _).
        rewrite Htext in Htext'. inversion Htext'; subst label more'.
        split.
        -- unfold op_text. simpl.
           rewrite list_lookup_insert_eq by lia. simpl.
           rewrite lookup_app_r; rewrite length_alter; [|lia].
           by rewrite Nat.sub_diag.
        -- simpl. rewrite lookup_insert_eq. f_equal. lia.
      * intros Hnone. by destruct (Hnone arg).
      * rewrite Htext, Hsec. exact Hpost.
  - apply bool_decide_eq_false_1 in Hsec.
    destruct (bool_decide (command o = "func")) eqn:Hfunc.
    { apply Hskip; [|done]. unfold func_toggle. by rewrite Hfunc. }
    destruct (bool_decide (command o = "endfunc")) eqn:Hend.
    { apply Hskip; [|done]. unfold func_toggle. by rewrite Hfunc, Hend. }
    apply Hskip; [|done]. unfold func_toggle. by rewrite Hfunc, Hend.
Qed.

(** A [pass] operation run by the dispatcher: nothing but the stamp of
    its index, unless a function definition is open and takes it in. *)
Lemma run_pass `{Helpers} op o (later : Program) :
  op_store later !! op = Some o →
  command o = "pass" →
  ∃ after,
    run op later = Ok tt after ∧
    sections after = sections later ∧
    operations after = operations later ∧
    states after = states later ∧
    (current_func later = None → after = stamped op later).
Proof.
  intros Hop Hcmd. unfold run, set_operation_index. unfold_m. simpl.
  rewrite list_lookup_alter_eq, Hop. simpl. rewrite Hcmd. simpl.
  destruct (current_func later) as [name|]; simpl.
  - destruct (functions later !! name) as [body|]; simpl.
    + eexists. split; [done|]. done.
    + eexists. split; [done|]. done.
  - eexists. split; [done|]. done.
Qed.

Lemma declares_agree (st st2 : Program) from flag pos label :
  (∀ pos, op_text st2 pos = op_text st pos) →
  declares st2 from flag pos label ↔ declares st from flag pos label.
Proof.
  intros Hagree. unfold declares.
  rewrite Hagree, (flag_after_agree st st2 0) by (done || lia). done.
Qed.

Lemma labelled_agree (st st2 : Program) from flag :
  (∀ pos, op_text st2 pos = op_text st pos) →
  labelled_from st from flag → labelled_from st2 from flag.
Proof.
  intros Hagree Hlab pos Hpos Htext.
  rewrite (flag_after_agree st st2 0) by (done || lia).
  apply Hlab; [done|]. by rewrite <- Hagree.
Qed.

(** C7.  The link pass goes once through the operation stream, whose
    length it keeps.  For every [section] operation outside a function
    definition it records the label with the index of the next position,
    so that the table ends with the label at the position after its last
    such declaration (after the declaration at hand when the label is
    declared once), and it puts a [pass] operation in the place of the
    declaration;
    the other positions keep their operation and the labels not declared
    there keep their entry.
    Whenever the dispatcher later runs the operation left there it runs a
    [pass]: the section table, the stream and the call stack stay as they
    are, and with no function definition open nothing changes but the
    index stamped on the operation. *)
Theorem C7_link_pass `{Helpers} (st : Program) :
  ops_allocated st →
  labelled_from st 0 false →
  ∃ st',
    link st = Ok tt st' ∧
    length (operations st') = length (operations st) ∧
    current_step st' = 0 ∧
    (∀ pos label,
       toplevel_section st pos label →
       op_text st' pos = Some ("pass", []) ∧
       (∃ last, (pos ≤ last)%nat ∧ toplevel_section st last label ∧
                sections st' !! label = Some (Z.of_nat last + 1)) ∧
       ((∀ other, toplevel_section st other label → other = pos) →
        sections st' !! label = Some (Z.of_nat pos + 1)) ∧
       ∀ op, operations st' !! pos = Some op →
         ∀ (later : Program) o,
           op_store later !! op = Some o →
           command o = "pass" →
           ∃ after,
             run op later = Ok tt after ∧
             sections after = sections later ∧
             operations after = operations later ∧
             states after = states later ∧
             (current_func later = None → after = stamped op later)) ∧
    (∀ pos, (∀ label, ¬ toplevel_section st pos label) →
       operations st' !! pos = operations st !! pos) ∧
    (∀ label, (∀ pos, ¬ toplevel_section st pos label) →
       sections st' !! label = sections st !! label).
Proof.
  intros Halloc Hlab.
  destruct (load_sections_spec (length (operations st)) 0 false
              (put_current_step 0 st))
    as (st1 & Hrun & Hlen & _ & _ & Htable & Hdecl & Hkeep);
    [reflexivity|exact Halloc|by apply (labelled_agree st)|].
  assert (Hsame : ∀ p l, declares (put_current_step 0 st) 0 false p l
                         ↔ toplevel_section st p l).
  { intros p l. by apply declares_agree. }
  exists (put_current_step 0 st1).
  split; [|split; [done|split; [done|split; [|split]]]].
  { change (Z.of_nat 0) with 0 in Hrun.
    unfold link. unfold_m.
    change (operations (put_current_step 0 st)) with (operations st).
    by rewrite Hrun. }
  2: { intros pos Hnone. apply (Hkeep pos); [lia|].
       intros label Hdecl'. by apply (Hnone label), Hsame. }
  2: { intros label Hnone. destruct (Htable label) as [?|(pos & Hpos & _)]; [done|].
       by destruct (Hnone pos); apply Hsame. }
  intros pos label Hpos.
  apply Hsame in Hpos.
  destruct (Hdecl pos label Hpos) as [Htext (last & Hle & Hlast & Hval)].
  apply Hsame in Hlast.
  split; [done|]. split; [by exists last|]. split.
  - intros Hone. by rewrite <- (Hone last Hlast).
  - intros op _ later o Hop Hcmd. by apply (run_pass op o).
Qed.

Lemma C7_link_pass_witness :
  op_text unlinked 0 = Some ("section", ["top"]) ∧
  op_text linked 0 = Some ("pass", []) ∧
  sections linked !! "top" = Some 1.
Proof.
  split; [by vm_compute|].
  assert (ops_allocated unlinked) as Halloc.
  { unfold ops_allocated. simpl. repeat constructor. }
  assert (labelled_from unlinked 0 false) as Hlab.
  { intros pos _ Htext.
    do 5 (destruct pos as [|pos]; [vm_compute in Htext; discriminate Htext|]).
    vm_compute in Htext. discriminate Htext. }
  assert (toplevel_section unlinked 0 "top") as Htop.
  { split; [done|]. split; [by eexists|done]. }
  destruct (@C7_link_pass idle_helpers unlinked Halloc Hlab)
    as (st' & Hrun & _ & _ & Hdecl & _).
  assert (st' = linked) as -> by (unfold linked; by rewrite Hrun).
  destruct (Hdecl 0%nat "top" Htop) as (Htext & _ & Hone & _).
  split; [exact Htext|]. apply Hone.
  intros other (_ & [more Hother] & Hflag).
  do 5 (destruct other as [|other];
        [first [reflexivity|vm_compute in Hother; try discriminate Hother;
                vm_compute in Hflag; discriminate Hflag]|]).
  vm_compute in Hother. discriminate Hother.
Defined.

(** * Further properties of the execution core *)

(** ** Errors that no try catches *)

Lemma print_trace_lines frames (st : Program) :
  Forall (λ frame,
            is_Some (py_getitem (operations st) (entry_point frame)
                       ≫= (op_store st !!.))) frames →
  ∀ printed,
    print_trace frames (put_console printed st) =
      Ok tt (put_console (printed ++ trace_lines st frames) st).
Proof.
  induction 1 as [|frame rest [tmp_op Hop] _ IH]; intros printed.
  { simpl. unfold ret. by rewrite app_nil_r. }
  simpl. unfold_m. simpl.
  destruct (py_getitem (operations st) (entry_point frame)) as [tmp|];
    [|done]. simpl in Hop |- *. rewrite Hop.
  destruct (index tmp_op) as [i|]; simpl.
  - etrans; [exact (IH (printed ++ [tab +:+ "in " +:+ pretty i +:+ ": " +:+ str tmp_op]))|].
    by rewrite <- app_assoc.
  - apply IH.
Qed.

Lemma raise_error_fatal_unfold error_type message op (st : Program) :
  is_in_try st = None →
  is_test st = false →
  raise_error error_type message op st =
    match print_trace (states st)
            (put_console (console st ++ [error_type +:+ ": " +:+ message +:+ ":"]) st)
    with
    | Ok _ st1 =>
        match op_store st1 !! op with
        | Some o =>
            match index o with
            | Some i =>
                Exit 1 (put_console
                          (console st1 ++ [tab +:+ "in " +:+ pretty i +:+ ": " +:+ str o])
                          st1)
            | None => Raise (key_error "index") st1
            end
        | None => Raise ReferenceError st1
        end
    | Raise ex st1 => Raise ex st1
    | Exit code st1 => Exit code st1
    end.
Proof.
  intros Htry Htest. unfold raise_error. unfold_m. rewrite Htry, Htest.
  simpl.
  destruct (print_trace _ _) as [[] st1|?|?]; [|done..].
  destruct (op_store st1 !! op) as [o|]; [|done].
  by destruct (index o).
Qed.

(** X1.  An error raised with no try-context armed and outside the test
    mode ends the process with status 1.  Before that it prints the line
    with the type and the message, at most one line per call frame, and the
    line of the failing operation; nothing but the console changes. *)
Theorem fatal_error_exits error_type message op (st : Program) o i :
  is_in_try st = None →
  is_test st = false →
  frames_in_range st →
  op_store st !! op = Some o →
  index o = Some i →
  raise_error error_type message op st =
    Exit 1 (put_console
              (console st ++ [error_type +:+ ": " +:+ message +:+ ":"]
                 ++ trace_lines st (states st)
                 ++ [tab +:+ "in " +:+ pretty i +:+ ": " +:+ str o]) st) ∧
  (length (trace_lines st (states st)) ≤ length (states st))%nat.
Proof.
  intros Htry Htest Hframes Hop Hidx. split.
  - rewrite raise_error_fatal_unfold by done.
    rewrite (print_trace_lines (states st) st Hframes).
    change (op_store (put_console ?c st)) with (op_store st).
    rewrite Hop, Hidx. simpl. by rewrite <- !app_assoc.
  - clear. induction (states st) as [|frame rest IH]; simpl; [done|].
    destruct (py_getitem _ _ ≫= _) as [tmp_op|]; [|lia].
    destruct (index tmp_op); simpl; lia.
Qed.

Lemma fatal_error_exits_witness :
  raise_error "RuntimeError" "boom" 1%nat crashing =
    Exit 1 (put_console
              ["RuntimeError: boom:";
               tab +:+ "in " +:+ pretty 0 +:+ ": f";
               tab +:+ "in " +:+ pretty 1 +:+ ": boom"] crashing).
Proof.
  destruct (fatal_error_exits "RuntimeError" "boom" 1%nat crashing
              (with_index (Some 1) (op_of "boom" [])) 1) as [Hrun _].
  - by vm_compute.
  - by vm_compute.
  - constructor; [by eexists|constructor].
  - by vm_compute.
  - by vm_compute.
  - exact Hrun.
Defined.

Lemma py_repr_body_plain s :
  plain_text s = true → py_repr_body squote_char s = s.
Proof.
  induction s as [|ch rest IH]; [done|]. cbn [plain_text py_repr_body].
  rewrite !andb_true_iff, !negb_true_iff.
  intros ((((Hlow & Hhigh) & Hquote) & Hback) & Hrest).
  rewrite IH by done. unfold py_repr_char, py_printable.
  rewrite Hquote, Hback, Hlow, Hhigh. cbn [orb andb].
  apply N.leb_le in Hlow.
  rewrite (proj2 (N.eqb_neq _ 9)), (proj2 (N.eqb_neq _ 10)),
    (proj2 (N.eqb_neq _ 13)) by lia.
  done.
Qed.

Lemma plain_text_no_quote s : plain_text s = true → holds squote_char s = false.
Proof.
  induction s as [|ch rest IH]; [done|]. cbn [plain_text holds].
  rewrite !andb_true_iff, !negb_true_iff.
  intros ((((_ & _) & Hquote) & _) & Hrest).
  rewrite Ascii.eqb_sym, Hquote. by apply IH.
Qed.

(** [repr] of a plain text is the text between single quotes. *)
Lemma py_repr_plain s :
  plain_text s = true → py_repr s = squote +:+ s +:+ squote.
Proof.
  intros Hplain. unfold py_repr.
  rewrite plain_text_no_quote by done. cbn [andb].
  by rewrite py_repr_body_plain.
Qed.

(** X2.  A try whose label is not in the section table catches nothing:
    when an undefined operation is met under it in test mode, the turn of
    the main loop disarms the try, and what it records is not the
    [SyntaxError] but a [RuntimeError] whose message is the text of the
    [KeyError] of the failed lookup, [repr] of the label: for a label of
    printable ASCII characters with neither a single quote nor a
    backslash, the label between single quotes.  The program counter just
    moves on. *)
Theorem try_with_unknown_label `{Helpers} op o (st : Program) label :
  py_getitem (operations st) (current_step st) = Some op →
  op_store st !! op = Some o →
  command o ∉ "endfunc" :: "popstate" :: "pass" :: builtin_commands →
  current_func st = None →
  lookup_function (command o) st = None →
  is_in_try st = Some label →
  sections st !! label = None →
  is_test st = true →
  ∃ st',
    step st = Ok tt st' ∧
    runtime_error st' = Some ("RuntimeError", py_repr label, op) ∧
    (plain_text label = true → py_repr label = squote +:+ label +:+ squote) ∧
    is_in_try st' = None ∧
    current_step st' = current_step st + 1 ∧
    mem st' = mem st ∧
    operations st' = operations st ∧
    sections st' = sections st.
Proof.
  intros Hpc Hop Hcmd Hopen Hnone Htry Hsec Htest.
  unfold step. unfold_m. simpl. rewrite Hpc.
  rewrite (run_invoke op o), Hnone by done.
  rewrite (raise_error_missing_label _ _ op (stamped op st) label) by done.
  simpl. rewrite Hpc. unfold set_operation_index, modify. simpl.
  erewrite raise_error_harness by done.
  eexists. split; [done|]. split; [done|]. split; [apply py_repr_plain|done].
Qed.

Lemma try_with_unknown_label_witness :
  ∃ st',
    @step idle_helpers armed_nowhere = Ok tt st' ∧
    runtime_error st' =
      Some ("RuntimeError", squote +:+ "nowhere" +:+ squote, 0%nat) ∧
    is_in_try st' = None ∧
    current_step st' = 1.
Proof.
  destruct (@try_with_unknown_label idle_helpers 0%nat
              (with_index (Some 2) (op_of "boom" [])) armed_nowhere "nowhere")
    as (st' & Hstep & Herr & Hplain & Htry & Hpc & _).
  - by vm_compute.
  - by vm_compute.
  - apply (bool_decide_unpack _). by vm_compute.
  - by vm_compute.
  - by vm_compute.
  - by vm_compute.
  - by vm_compute.
  - by vm_compute.
  - exists st'. split; [exact Hstep|]. split.
    + rewrite <- (Hplain eq_refl). exact Herr.
    + split; [exact Htry|exact Hpc].
Defined.

(** ** The splice of a body *)

Lemma lookup_stamp (store : list Operation) op i r :
  alter (with_index i) op store !! r =
    (λ o, if decide (op = r) then with_index i o else o) <$> store !! r.
Proof.
  rewrite list_lookup_alter. case_decide.
  - subst r. by destruct (store !! op).
  - by destruct (store !! r).
Qed.

Lemma spliced_ops_stamp store op i func_body flag :
  spliced_ops (alter (with_index i) op store) func_body flag =
  spliced_ops store func_body flag.
Proof.
  revert flag. induction func_body as [|func_op rest IH]; intros flag; [done|].
  simpl. rewrite lookup_stamp.
  destruct (store !! func_op) as [o|]; simpl; [|done].
  replace (command (if decide (op = func_op) then with_index i o else o))
    with (command o) by by case_decide.
  replace (args (if decide (op = func_op) then with_index i o else o))
    with (args o) by by case_decide.
  destruct (bool_decide (command o = "section") && negb flag).
  - destruct (args o); [done|]. apply IH.
  - by rewrite IH.
Qed.

Lemma body_flag_stamp store op i func_body flag :
  body_flag (alter (with_index i) op store) func_body flag =
  body_flag store func_body flag.
Proof.
  revert flag. induction func_body as [|func_op rest IH]; intros flag; [done|].
  simpl. rewrite lookup_stamp.
  destruct (store !! func_op) as [o|]; simpl; [|done].
  replace (command (if decide (op = func_op) then with_index i o else o))
    with (command o) by by case_decide.
  destruct (bool_decide (command o = "section") && negb flag); apply IH.
Qed.

Lemma body_wf_stamp store op i func_body flag :
  body_wf (alter (with_index i) op store) func_body flag =
  body_wf store func_body flag.
Proof.
  revert flag. induction func_body as [|func_op rest IH]; intros flag; [done|].
  simpl. rewrite lookup_stamp.
  destruct (store !! func_op) as [o|]; simpl; [|done].
  replace (command (if decide (op = func_op) then with_index i o else o))
    with (command o) by by case_decide.
  replace (args (if decide (op = func_op) then with_index i o else o))
    with (args o) by by case_decide.
  destruct (bool_decide (command o = "section") && negb flag).
  - destruct (args o); [done|]. apply IH.
  - apply IH.
Qed.

Lemma py_insert_in_range {A} (l : list A) p x :
  0 ≤ p ≤ Z.of_nat (length l) →
  py_insert p x l = take (Z.to_nat p) l ++ x :: drop (Z.to_nat p) l.
Proof.
  intros Hp. unfold py_insert.
  rewrite (bool_decide_eq_false_2 (p < 0)) by lia. by rewrite Z.min_l by lia.
Qed.

(** One more operation in the middle of a splice. *)
Lemma splice_cons {A} (l : list A) n x more :
  (n ≤ length l)%nat →
  take (S n) (take n l ++ x :: drop n l) ++ more
    ++ drop (S n) (take n l ++ x :: drop n l) =
  take n l ++ (x :: more) ++ drop n l.
Proof.
  intros Hn.
  assert (S n = length (take n l ++ [x])) as Hlen
    by (rewrite length_app, length_take; simpl; lia).
  assert (take n l ++ x :: drop n l = (take n l ++ [x]) ++ drop n l) as ->
    by by rewrite <- app_assoc.
  rewrite (take_app_length' _ _ _ Hlen), (drop_app_length' _ _ _ Hlen).
  by rewrite <- !app_assoc.
Qed.

(** The loop of [exec_func]: where the operations go. *)
Lemma exec_func_loop_layout func_body i flag (st : Program) i' st' :
  0 ≤ i + 1 ≤ Z.of_nat (length (operations st)) →
  exec_func_loop func_body i flag st = Ok i' st' →
  operations st' =
    take (Z.to_nat (i + 1)) (operations st)
      ++ spliced_ops (op_store st) func_body flag
      ++ drop (Z.to_nat (i + 1)) (operations st) ∧
  i' = i + Z.of_nat (length (spliced_ops (op_store st) func_body flag)).
Proof.
  revert i flag st. induction func_body as [|func_op rest IH]; intros i flag st Hi.
  { simpl. intros [= <- <-]. simpl. rewrite take_drop. split; [done|lia]. }
  simpl. unfold set_operation_index. unfold_m. simpl.
  rewrite list_lookup_alter_eq.
  destruct (op_store st !! func_op) as [o|] eqn:Hop; simpl; [|done].
  destruct (bool_decide (command o = "section") && negb flag) eqn:Hsec.
  - destruct (args o) as [|section_name more]; simpl; [done|].
    intros Hloop. apply IH in Hloop; [|done]. simpl in Hloop.
    by rewrite spliced_ops_stamp in Hloop.
  - intros Hloop. apply IH in Hloop.
    2: { simpl. rewrite py_insert_length. lia. }
    simpl in Hloop. rewrite spliced_ops_stamp in Hloop.
    unfold func_toggle.
    destruct Hloop as [Hops ->]. split; [|simpl length; lia].
    rewrite Hops, py_insert_in_range by lia.
    replace (Z.to_nat (i + 1 + 1)) with (S (Z.to_nat (i + 1))) by lia.
    apply splice_cons. lia.
Qed.

(** The loop of [exec_func] goes through exactly the bodies that are
    well formed. *)
Lemma exec_func_loop_total func_body i flag (st : Program) :
  body_wf (op_store st) func_body flag = true ↔
  ∃ i' st', exec_func_loop func_body i flag st = Ok i' st'.
Proof.
  revert i flag st. induction func_body as [|func_op rest IH]; intros i flag st.
  { simpl. split; [by eexists _, _|done]. }
  simpl. unfold set_operation_index. unfold_m. simpl.
  rewrite list_lookup_alter_eq.
  destruct (op_store st !! func_op) as [o|] eqn:Hop; simpl.
  2: { split; [done|]. by intros (? & ? & ?). }
  destruct (bool_decide (command o = "section") && negb flag) eqn:Hsec.
  - destruct (args o) as [|section_name more]; simpl.
    { split; [done|]. by intros (? & ? & ?). }
    rewrite <- IH. simpl. by rewrite body_wf_stamp.
  - rewrite <- IH. simpl. by rewrite body_wf_stamp.
Qed.

Lemma exec_func_unfold_call func_body (st : Program) entries :
  dict_store st !! variables st = Some entries →
  current_step st ∉ runed_functions st →
  exec_func func_body true st =
    match exec_func_loop func_body (current_step st) false
            (put_runed_functions (runed_functions st ++ [current_step st])
               (put_states
                  (states st ++ [mkFrame (current_step st) (length (dict_store st))])
                  (put_dict_store (dict_store st ++ [entries]) st)))
    with
    | Ok i st1 =>
        Ok tt (insert_operation (i + 1) (length (op_store st1))
                 (put_op_store (op_store st1 ++ [parse_popstate]) st1))
    | Raise ex st1 => Raise ex st1
    | Exit code st1 => Exit code st1
    end.
Proof.
  intros Hvars Hnot. unfold exec_func, copy_dict, new_op. unfold_m. simpl.
  rewrite Hvars. simpl. rewrite bool_decide_eq_false_2 by done. simpl.
  by destruct (exec_func_loop _ _ _ _).
Qed.

Lemma exec_func_unfold_include func_body (st : Program) :
  exec_func func_body false st =
    match exec_func_loop func_body (current_step st) false st with
    | Ok i st1 => Ok tt st1
    | Raise ex st1 => Raise ex st1
    | Exit code st1 => Exit code st1
    end.
Proof.
  unfold exec_func. unfold_m. simpl. rewrite andb_false_r.
  by destruct (exec_func_loop _ _ _ _).
Qed.

(** Where [exec_func] puts the operations. *)
Lemma exec_func_layout func_body with_state (st st' : Program) :
  0 ≤ current_step st < Z.of_nat (length (operations st)) →
  (with_state = true → current_step st ∉ runed_functions st) →
  exec_func func_body with_state st = Ok tt st' →
  let at_index := Z.to_nat (current_step st + 1) in
  let marker := length (op_store st) in
  operations st' =
    take at_index (operations st)
      ++ spliced_ops (op_store st) func_body false
      ++ (if with_state then [marker] else [])
      ++ drop at_index (operations st) ∧
  (with_state = true → op_store st' !! marker = Some parse_popstate).
Proof.
  intros Hpc Hguard. destruct with_state.
  - specialize (Hguard eq_refl).
    unfold exec_func at 1, copy_dict. unfold_m. simpl.
    destruct (dict_store st !! variables st) as [entries|] eqn:Hvars;
      simpl; [|done].
    intros Hrun.
    assert (exec_func func_body true st = Ok tt st') as Hrun'.
    { unfold exec_func at 1, copy_dict. unfold_m. simpl. by rewrite Hvars. }
    clear Hrun. rewrite (exec_func_unfold_call func_body st entries) in Hrun' by done.
    match type of Hrun' with context [exec_func_loop ?b ?j ?f ?s] =>
      pose proof (exec_func_loop_layout b j f s) as Hlay;
      pose proof (exec_func_loop_frame b j f s) as Hframe;
      destruct (exec_func_loop b j f s) as [i st1|?|?] end; [|done..].
    inversion Hrun'; subst st'. clear Hrun'.
    destruct (Hlay i st1) as [Hops ->]; [simpl; lia|done|].
    simpl in Hops, Hframe. destruct Hframe as (_ & _ & _ & _ & _ & Hlen).
    simpl. split.
    + rewrite Hops, py_insert_in_range.
      2: { rewrite !length_app, length_take, length_drop. lia. }
      set (body := spliced_ops (op_store st) func_body false).
      set (n := Z.to_nat (current_step st + 1)).
      replace (Z.to_nat (current_step st + Z.of_nat (length body) + 1))
        with (length (take n (operations st) ++ body))
        by (rewrite length_app, length_take; lia).
      rewrite app_assoc, take_app_length, drop_app_length.
      rewrite Hlen. by rewrite <- !app_assoc.
    + intros _. rewrite <- Hlen, lookup_app_r by lia.
      by rewrite Nat.sub_diag.
  - rewrite exec_func_unfold_include.
    pose proof (exec_func_loop_layout func_body (current_step st) false st) as Hlay.
    destruct (exec_func_loop _ _ _ _) as [i st1|?|?]; [|done..].
    intros [= <-]. destruct (Hlay i st1) as [Hops _]; [lia|done|].
    simpl. split; [done|]. done.
Qed.

(** ** The section table across a splice *)

(** C1 (amended).  An insertion into the operation stream at the list
    index [q], done as [exec_func] does each of them, increases by one
    every entry of the section table strictly greater than [q], which then
    addresses the operation it addressed before, and leaves the entries up
    to [q] as they are.  [exec_func] inserts from the index [q = p + 1],
    right after the program counter [p]: when it splices [k] operations,
    every entry recorded before for a label that the spliced body does not
    declare itself goes up by exactly [k] when it was strictly greater than
    [p + 1], and still addresses the same operation; it stays when it was
    at most [p + 1], so that an entry equal to [p + 1] addresses the first
    of the spliced operations afterwards. *)
Theorem C1_splice_index_shift :
  (∀ q op (st : Program) label s,
     0 ≤ q →
     sections st !! label = Some s →
     let st' := insert_operation q op st in
     (q < s →
        sections st' !! label = Some (s + 1) ∧
        py_getitem (operations st') (s + 1) = py_getitem (operations st) s) ∧
     (s ≤ q → sections st' !! label = Some s)) ∧
  (∀ func_body with_state (st st' : Program),
     0 ≤ current_step st + 1 →
     exec_func func_body with_state st = Ok tt st' →
     let q := current_step st + 1 in
     let k := Z.of_nat (length (operations st')) - Z.of_nat (length (operations st)) in
     0 ≤ k ∧
     ∀ label s,
       sections st !! label = Some s →
       label ∉ body_labels (op_store st) func_body false →
       (q < s →
          sections st' !! label = Some (s + k) ∧
          py_getitem (operations st') (s + k) = py_getitem (operations st) s) ∧
       (s ≤ q → sections st' !! label = Some s)) ∧
  (∀ func_body with_state (st st' : Program) label,
     0 ≤ current_step st < Z.of_nat (length (operations st)) →
     (with_state = true → current_step st ∉ runed_functions st) →
     exec_func func_body with_state st = Ok tt st' →
     sections st !! label = Some (current_step st + 1) →
     label ∉ body_labels (op_store st) func_body false →
     sections st' !! label = Some (current_step st + 1) ∧
     py_getitem (operations st') (current_step st + 1) =
       head (spliced_ops (op_store st) func_body false
               ++ (if with_state then [length (op_store st)] else [])
               ++ drop (Z.to_nat (current_step st + 1)) (operations st))).
Proof.
  split; [|split].
  - intros q op st label s Hq Hs. by apply insert_operation_shift.
  - intros func_body with_state st st' Hpc Hrun.
    by apply (exec_func_shift func_body with_state).
  - intros func_body with_state st st' label Hpc Hguard Hrun Hs Hnot.
    destruct (exec_func_shift func_body with_state st st') as [_ Hshift];
      [lia|done|].
    destruct (Hshift label _ Hs Hnot) as [_ Hstay].
    split; [apply Hstay; lia|].
    destruct (exec_func_layout func_body with_state st st' Hpc Hguard Hrun)
      as [Hops _].
    rewrite py_getitem_nonneg, Hops by lia.
    rewrite lookup_app_r; rewrite length_take; [|lia].
    replace (Z.to_nat (current_step st + 1)
               - Z.to_nat (current_step st + 1) `min` length (operations st))%nat
      with 0%nat by lia.
    match goal with |- ?l !! 0%nat = head ?l => by destruct l end.
Qed.

Lemma C1_splice_index_shift_witness :
  sections with_sections !! "b" = Some 2 ∧
  sections spliced_sections !! "b" = Some 4 ∧
  py_getitem (operations spliced_sections) 4 =
    py_getitem (operations with_sections) 2 ∧
  sections spliced_sections !! "a" = Some 1 ∧
  py_getitem (operations spliced_sections) 1 = Some 3%nat.
Proof.
  split; [by vm_compute|].
  destruct C1_splice_index_shift as (_ & Hsplice & Hfirst).
  destruct (Hsplice [3%nat] true with_sections spliced_sections)
    as [_ Hshift]; [by vm_compute|by vm_compute|].
  assert (∀ label : string, label ∉ body_labels (op_store with_sections) [3%nat] false)
    as Hfree.
  { intros label. vm_compute. apply not_elem_of_nil. }
  destruct (Hshift "b" 2 eq_refl (Hfree _)) as [Hb _].
  destruct Hb as [Hb1 Hb2]; [by vm_compute|].
  split; [exact Hb1|]. split; [exact Hb2|].
  apply (Hfirst [3%nat] true with_sections spliced_sections "a").
  - by vm_compute.
  - intros _. apply not_elem_of_nil.
  - by vm_compute.
  - by vm_compute.
  - apply Hfree.
Defined.

(** The claim C1 as stated fails in two ways.  A label that the spliced
    body declares is recorded anew by the loop: with [b] at 2, behind the
    insertion point, the call at position 0 of a function with the body
    [section b; read] splices two operations and leaves [b] at 1, not at
    4.  And an entry right behind the call site is not greater than the
    index of the insertion: with [a] at 1, the call at position 0 leaves
    [a] at 1, where the first spliced operation now is. *)
Lemma C1_counterexample :
  (sections redeclaring !! "b" = Some 2 ∧
   current_step redeclaring + 1 < 2 ∧
   exec_func [4%nat; 3%nat] true redeclaring = Ok tt redeclared ∧
   Z.of_nat (length (operations redeclared))
     - Z.of_nat (length (operations redeclaring)) = 2 ∧
   sections redeclared !! "b" = Some 1 ∧
   sections redeclared !! "b" ≠ Some (2 + 2)) ∧
  (sections with_sections !! "a" = Some 1 ∧
   current_step with_sections < 1 ∧
   exec_func [3%nat] true with_sections = Ok tt spliced_sections ∧
   sections spliced_sections !! "a" = Some 1 ∧
   py_getitem (operations with_sections) 1 = Some 1%nat ∧
   py_getitem (operations spliced_sections) 1 = Some 3%nat ∧
   py_getitem (operations spliced_sections) 1 ≠
     py_getitem (operations with_sections) 1).
Proof. by vm_compute. Qed.

(** X3.  A call that is not held back by the guard puts into the stream,
    right after the program counter and in the order of the body, the
    operations of the body other than its own section declarations, then
    a new [popstate] operation; what came before and after in the stream
    stays in order around them.  Code spliced without call state goes to
    the same place, without the marker. *)
Theorem splice_layout func_body with_state (st st' : Program) :
  0 ≤ current_step st < Z.of_nat (length (operations st)) →
  (with_state = true → current_step st ∉ runed_functions st) →
  exec_func func_body with_state st = Ok tt st' →
  let at_index := Z.to_nat (current_step st + 1) in
  let marker := length (op_store st) in
  operations st' =
    take at_index (operations st)
      ++ spliced_ops (op_store st) func_body false
      ++ (if with_state then [marker] else [])
      ++ drop at_index (operations st) ∧
  (with_state = true → op_store st' !! marker = Some parse_popstate).
Proof. apply exec_func_layout. Qed.

Lemma splice_layout_witness :
  operations spliced_sections = [0%nat; 3%nat; 4%nat; 1%nat; 2%nat] ∧
  op_store spliced_sections !! 4%nat = Some parse_popstate.
Proof.
  destruct (splice_layout [3%nat] true with_sections spliced_sections)
    as [Hops Hmarker].
  - by vm_compute.
  - intros _. apply not_elem_of_nil.
  - by vm_compute.
  - split; [exact Hops|exact (Hmarker eq_refl)].
Defined.

(** When [exec_func] returns. *)
Lemma exec_func_returns_iff_aux func_body with_state (st : Program) :
  (∃ st', exec_func func_body with_state st = Ok tt st') ↔
  (with_state = true → is_Some (dict_store st !! variables st)) ∧
  ((with_state = true ∧ current_step st ∈ runed_functions st) ∨
   body_wf (op_store st) func_body false = true).
Proof.
  destruct with_state.
  - destruct (dict_store st !! variables st) as [entries|] eqn:Hvars.
    2: { split.
         - intros [st' Hrun]. unfold exec_func, copy_dict, bind, gets in Hrun.
           simpl in Hrun. by rewrite Hvars in Hrun.
         - intros [Hsome _]. by destruct (Hsome eq_refl). }
    destruct (decide (current_step st ∈ runed_functions st)) as [Hin|Hnot].
    { split.
      - intros _. split; [by eauto|]. by left.
      - intros _. eexists. by eapply exec_func_guarded. }
    rewrite (exec_func_unfold_call func_body st entries) by done.
    match goal with |- context [exec_func_loop ?b ?j ?f ?s] =>
      pose proof (exec_func_loop_total b j f s) as Htotal end.
    simpl in Htotal. split.
    + intros [st' Hrun]. split; [by eauto|]. right. apply Htotal.
      destruct (exec_func_loop _ _ _ _) as [i st1|?|?]; [|done..].
      by eexists _, _.
    + intros [_ [[_ Hin]|Hwf]]; [done|].
      apply Htotal in Hwf as (i & st1 & ->). by eexists.
  - rewrite exec_func_unfold_include.
    pose proof (exec_func_loop_total func_body (current_step st) false st) as Htotal.
    split.
    + intros [st' Hrun]. split; [done|]. right. apply Htotal.
      destruct (exec_func_loop _ _ _ _) as [i st1|?|?]; [|done..].
      by eexists _, _.
    + intros [_ [[? _]|Hwf]]; [done|].
      apply Htotal in Hwf as (i & st1 & ->). by eexists.
Qed.

(** X4.  [exec_func] returns normally exactly when the dict of the global
    variables exists (for a call) and either the guard on the call site
    holds the call back or the body is well formed: all its operations
    exist and each of its section declarations has a label. *)
Theorem exec_func_returns_iff func_body with_state (st : Program) :
  (∃ st', exec_func func_body with_state st = Ok tt st') ↔
  (with_state = true → is_Some (dict_store st !! variables st)) ∧
  ((with_state = true ∧ current_step st ∈ runed_functions st) ∨
   body_wf (op_store st) func_body false = true).
Proof. apply exec_func_returns_iff_aux. Qed.

(** A call that fails while it splices. *)
Lemma exec_func_fails func_body (st : Program) :
  is_Some (dict_store st !! variables st) →
  current_step st ∉ runed_functions st →
  body_wf (op_store st) func_body false = false →
  ∃ ex st',
    exec_func func_body true st = Raise ex st' ∧
    states st' =
      states st ++ [mkFrame (current_step st) (length (dict_store st))] ∧
    runed_functions st' = runed_functions st ++ [current_step st] ∧
    current_step st' = current_step st ∧
    length (op_store st') = length (op_store st) ∧
    ∀ later_body, ∃ st'',
      exec_func later_body true st' = Ok tt st'' ∧
      operations st'' = operations st'.
Proof.
  intros [entries Hvars] Hnot Hwf.
  rewrite (exec_func_unfold_call func_body st entries) by done.
  match goal with |- context [exec_func_loop ?b ?j ?f ?s] =>
    pose proof (exec_func_loop_total b j f s) as Htotal;
    pose proof (exec_func_loop_frame b j f s) as Hframe;
    destruct (exec_func_loop b j f s) as [i st1|ex st1|code st1] eqn:Hloop end.
  - simpl in Htotal. rewrite Hwf in Htotal.
    destruct Htotal as [_ Htotal]. by discriminate Htotal; eexists _, _.
  - simpl in Hframe. destruct Hframe as (Hst & Hd & Hv & Hpc & Hruned & Hlen).
    exists ex, st1. split; [done|]. repeat (split; [done|]).
    intros later_body.
    rewrite (exec_func_guarded later_body st1 entries); [by eexists|..].
    + rewrite Hd, Hv. by apply lookup_app_l_Some.
    + rewrite Hpc, Hruned. apply elem_of_app. right. apply list_elem_of_here.
  - exfalso. clear -Hloop.
    match type of Hloop with exec_func_loop ?b ?j ?f ?s = _ =>
      revert Hloop; generalize s; generalize j; generalize f end.
    induction func_body as [|func_op rest IH]; intros f j s; [done|].
    simpl. unfold set_operation_index. unfold_m. simpl.
    destruct (alter _ func_op (op_store s) !! func_op) as [o|]; [|done]. simpl.
    destruct (bool_decide (command o = "section") && negb f).
    + destruct (args o); [done|]. apply IH.
    + apply IH.
Qed.

(** X5.  A call whose body is not well formed fails while it splices,
    after the fact: the call frame is on the stack, the call site is
    among the call sites run, and no [popstate] marker has been made.
    The guard then holds back every later call from this site, so the
    body is never spliced from there. *)
Theorem failed_call_leaves_frame func_body (st : Program) :
  is_Some (dict_store st !! variables st) →
  current_step st ∉ runed_functions st →
  body_wf (op_store st) func_body false = false →
  ∃ ex st',
    exec_func func_body true st = Raise ex st' ∧
    states st' =
      states st ++ [mkFrame (current_step st) (length (dict_store st))] ∧
    runed_functions st' = runed_functions st ++ [current_step st] ∧
    current_step st' = current_step st ∧
    length (op_store st') = length (op_store st) ∧
    ∀ later_body, ∃ st'',
      exec_func later_body true st' = Ok tt st'' ∧
      operations st'' = operations st'.
Proof. apply exec_func_fails. Qed.

Lemma failed_call_leaves_frame_witness :
  ∃ ex st',
    exec_func [1%nat] true unlabelled_body = Raise ex st' ∧
    states st' = [mkFrame 0 1%nat] ∧
    runed_functions st' = [0] ∧
    ∃ st'',
      exec_func [0%nat] true st' = Ok tt st'' ∧
      operations st'' = operations st'.
Proof.
  destruct (failed_call_leaves_frame [1%nat] unlabelled_body)
    as (ex & st' & Hrun & Hstates & Hruned & _ & _ & Hlater).
  - by eexists.
  - apply not_elem_of_nil.
  - by vm_compute.
  - exists ex, st'. split; [exact Hrun|]. split; [exact Hstates|].
    split; [exact Hruned|]. exact (Hlater [0%nat]).
Defined.

Lemma exec_func_call_runed func_body (st st' : Program) :
  exec_func func_body true st = Ok tt st' →
  current_step st ∈ runed_functions st'.
Proof.
  intros Hrun.
  destruct (dict_store st !! variables st) as [entries|] eqn:Hvars.
  2: { unfold exec_func, copy_dict, bind, gets in Hrun. simpl in Hrun.
       by rewrite Hvars in Hrun. }
  destruct (decide (current_step st ∈ runed_functions st)) as [Hin|Hnot].
  { rewrite (exec_func_guarded func_body st entries) in Hrun by done.
    by inversion Hrun. }
  rewrite (exec_func_unfold_call func_body st entries) in Hrun by done.
  match type of Hrun with context [exec_func_loop ?b ?j ?f ?s] =>
    pose proof (exec_func_loop_frame b j f s) as Hframe;
    destruct (exec_func_loop b j f s) as [i st1|?|?] end; [|done..].
  inversion Hrun; subst st'. simpl in Hframe |- *.
  destruct Hframe as (_ & _ & _ & _ & -> & _).
  apply elem_of_app. right. apply list_elem_of_here.
Qed.

(** X6.  After a call has returned from [exec_func], a second call from
    the same position, whatever its body, only pushes a second frame: the
    stream and the section table stay as the first call left them. *)
Theorem second_call_not_spliced body1 body2 (st st1 : Program) :
  exec_func body1 true st = Ok tt st1 →
  ∃ st2,
    exec_func body2 true st1 = Ok tt st2 ∧
    operations st2 = operations st1 ∧
    sections st2 = sections st1 ∧
    states st2 =
      states st ++ [mkFrame (current_step st) (length (dict_store st));
                    mkFrame (current_step st) (S (length (dict_store st)))].
Proof.
  intros Hrun. pose proof (exec_func_call_runed _ _ _ Hrun) as Hin.
  apply exec_func_call in Hrun as (entries & Hg & Hst & Hd & Hv & Hpc).
  rewrite (exec_func_guarded body2 st1 entries).
  - eexists. split; [done|]. simpl. split; [done|]. split; [done|].
    rewrite Hst, Hd, Hpc, length_app, <- app_assoc. simpl.
    by replace (length (dict_store st) + 1)%nat with (S (length (dict_store st))) by lia.
  - rewrite Hd, Hv. by apply lookup_app_l_Some.
  - by rewrite Hpc.
Qed.

Lemma second_call_not_spliced_witness :
  ∃ st2,
    exec_func [1%nat] true during_call = Ok tt st2 ∧
    operations st2 = operations during_call ∧
    sections st2 = sections during_call ∧
    states st2 = [mkFrame 0 1%nat; mkFrame 0 2%nat].
Proof.
  apply (second_call_not_spliced [1%nat] [1%nat] before_call during_call).
  by vm_compute.
Defined.

Lemma body_wf_app store pre post flag :
  body_wf store (pre ++ post) flag =
  body_wf store pre flag && body_wf store post (body_flag store pre flag).
Proof.
  revert flag. induction pre as [|func_op pre IH]; intros flag; [done|].
  simpl. destruct (store !! func_op) as [o|]; [|done].
  destruct (bool_decide (command o = "section") && negb flag).
  - destruct (args o); [done|]. apply IH.
  - apply IH.
Qed.

Lemma spliced_ops_app store pre post flag :
  body_wf store pre flag = true →
  spliced_ops store (pre ++ post) flag =
  spliced_ops store pre flag ++ spliced_ops store post (body_flag store pre flag).
Proof.
  revert flag. induction pre as [|func_op pre IH]; intros flag; [done|].
  simpl. destruct (store !! func_op) as [o|]; [|done].
  destruct (bool_decide (command o = "section") && negb flag).
  - destruct (args o); [done|]. apply IH.
  - intros Hwf. simpl. by rewrite IH.
Qed.

(** The entry that the loop of [exec_func] leaves for a label declared in
    the body. *)
Lemma exec_func_loop_label pre sec rest label more :
  ∀ i flag (st : Program) i' st' o,
    0 ≤ i + 1 →
    op_store st !! sec = Some o →
    command o = "section" →
    args o = label :: more →
    body_flag (op_store st) pre flag = false →
    label ∉ body_labels (op_store st) rest false →
    exec_func_loop (pre ++ sec :: rest) i flag st = Ok i' st' →
    sections st' !! label =
      Some (i + 1 + Z.of_nat (length (spliced_ops (op_store st) pre flag))).
Proof.
  induction pre as [|func_op pre IH];
    intros i flag st i' st' o Hi Hsec Hcmd Hargs Hflag Hnot.
  - simpl in Hflag. subst flag. simpl.
    unfold set_operation_index. unfold_m. simpl.
    rewrite list_lookup_alter_eq, Hsec. simpl. rewrite Hcmd, Hargs. simpl.
    intros Hloop.
    apply exec_func_loop_shift in Hloop as (_ & _ & Hshift); [|done].
    destruct (Hshift label (i + 1)) as [_ Hstay].
    + simpl. by rewrite lookup_insert_eq.
    + simpl. by rewrite body_labels_stamp.
    + rewrite Hstay by lia. f_equal. lia.
  - simpl. unfold set_operation_index. unfold_m. simpl.
    rewrite list_lookup_alter_eq.
    simpl in Hflag.
    destruct (op_store st !! func_op) as [p|] eqn:Hp; simpl; [|done].
    set (store' := alter (with_index (Some (current_step st))) func_op (op_store st)).
    assert (∃ o', store' !! sec = Some o' ∧ command o' = "section"
                  ∧ args o' = label :: more) as (o' & Ho' & Hc' & Ha').
    { unfold store'. rewrite lookup_stamp, Hsec. simpl.
      eexists. split; [done|]. by destruct (decide (func_op = sec)). }
    destruct (bool_decide (command p = "section") && negb flag) eqn:Htop.
    + destruct (args p) as [|name ?]; simpl; [done|].
      intros Hloop.
      eapply IH in Hloop; [|done|exact Ho'|done|done|..].
      * simpl in Hloop. unfold store' in Hloop.
        by rewrite spliced_ops_stamp in Hloop.
      * simpl. unfold store'. by rewrite body_flag_stamp.
      * simpl. unfold store'. by rewrite body_labels_stamp.
    + intros Hloop.
      eapply IH in Hloop; [|lia|exact Ho'|done|done|..].
      * simpl in Hloop. unfold store' in Hloop.
        rewrite spliced_ops_stamp in Hloop. unfold func_toggle.
        rewrite Hloop. f_equal. simpl length. lia.
      * simpl. unfold store'. by rewrite body_flag_stamp.
      * simpl. unfold store'. by rewrite body_labels_stamp.
Qed.

Lemma head_lookup_app {A} (l1 l2 : list A) :
  (l1 ++ l2) !! length l1 = head l2.
Proof.
  rewrite lookup_app_r by lia. rewrite Nat.sub_diag. by destruct l2.
Qed.

(** X7.  A label declared inside a spliced body ends up addressing the
    operation spliced right after the declaration: the next operation of
    the body that goes into the stream, or the [popstate] marker of the
    call when none follows, or, for code spliced without call state, the
    operation that followed the program counter. *)
Theorem body_label_addresses_next
    pre sec rest with_state (st st' : Program) o label more :
  0 ≤ current_step st < Z.of_nat (length (operations st)) →
  (with_state = true → current_step st ∉ runed_functions st) →
  op_store st !! sec = Some o →
  command o = "section" →
  args o = label :: more →
  body_flag (op_store st) pre false = false →
  label ∉ body_labels (op_store st) rest false →
  exec_func (pre ++ sec :: rest) with_state st = Ok tt st' →
  ∃ s,
    sections st' !! label = Some s ∧
    py_getitem (operations st') s =
      head (spliced_ops (op_store st) rest false
              ++ (if with_state then [length (op_store st)] else [])
              ++ drop (Z.to_nat (current_step st + 1)) (operations st)).
Proof.
  intros Hpc Hguard Hsec Hcmd Hargs Hflag Hnot Hrun.
  set (body := pre ++ sec :: rest) in *.
  set (n := length (spliced_ops (op_store st) pre false)).
  exists (current_step st + 1 + Z.of_nat n).
  destruct (exec_func_layout body with_state st st' Hpc Hguard Hrun) as [Hops _].
  assert (body_wf (op_store st) body false = true) as Hwf.
  { destruct (proj1 (exec_func_returns_iff_aux body with_state st) (ex_intro _ st' Hrun))
      as [_ [[-> Hin]|Hwf]]; [by destruct (Hguard eq_refl)|done]. }
  assert (spliced_ops (op_store st) body false =
          spliced_ops (op_store st) pre false ++ spliced_ops (op_store st) rest false)
    as Hsplit.
  { unfold body in Hwf |- *. rewrite body_wf_app in Hwf. apply andb_prop in Hwf as [Hwf1 _].
    rewrite spliced_ops_app by done. rewrite Hflag. simpl.
    by rewrite Hsec, Hcmd, Hargs. }
  split.
  - destruct with_state.
    + specialize (Hguard eq_refl).
      destruct (dict_store st !! variables st) as [entries|] eqn:Hvars.
      2: { unfold exec_func, copy_dict, bind, gets in Hrun. simpl in Hrun.
           by rewrite Hvars in Hrun. }
      rewrite (exec_func_unfold_call body st entries) in Hrun by done.
      match type of Hrun with context [exec_func_loop ?b ?j ?f ?s] =>
        pose proof (exec_func_loop_label pre sec rest label more j f s) as Hlabel;
        pose proof (exec_func_loop_layout b j f s) as Hlay;
        destruct (exec_func_loop b j f s) as [i st1|?|?] eqn:Hloop end; [|done..].
      inversion Hrun; subst st'. clear Hrun.
      specialize (Hlabel i st1 o ltac:(lia) Hsec Hcmd Hargs Hflag Hnot Hloop).
      destruct (Hlay i st1) as [_ Hi]; [simpl; lia|done|].
      simpl in Hlabel, Hi. rewrite Hsplit, length_app in Hi. fold n in Hi, Hlabel.
      match goal with |- sections (insert_operation ?at_index ?m ?s) !! _ = _ =>
        pose proof (insert_operation_shift at_index m s label
                      (current_step st + 1 + Z.of_nat n)) as [_ Hstay] end.
      * lia.
      * exact Hlabel.
      * apply Hstay. lia.
    + rewrite exec_func_unfold_include in Hrun.
      pose proof (exec_func_loop_label pre sec rest label more
                    (current_step st) false st) as Hlabel.
      destruct (exec_func_loop _ _ _ _) as [i st1|?|?] eqn:Hloop; [|done..].
      inversion Hrun; subst st'.
      apply (Hlabel i st1 o); (done || lia).
  - rewrite py_getitem_nonneg by lia. rewrite Hops, Hsplit.
    replace (Z.to_nat (current_step st + 1 + Z.of_nat n))
      with (length (take (Z.to_nat (current_step st + 1)) (operations st)
                      ++ spliced_ops (op_store st) pre false))
      by (rewrite length_app, length_take; fold n; lia).
    rewrite <- !app_assoc, (app_assoc (take _ _)).
    apply head_lookup_app.
Qed.

Lemma body_label_addresses_next_witness :
  ∃ s,
    sections (final_state (exec_func [2%nat; 3%nat; 4%nat] true labelled_body))
      !! "again" = Some s ∧
    py_getitem
      (operations (final_state (exec_func [2%nat; 3%nat; 4%nat] true labelled_body)))
      s = Some 4%nat.
Proof.
  apply (body_label_addresses_next [2%nat] 3%nat [4%nat] true labelled_body
           (final_state (exec_func [2%nat; 3%nat; 4%nat] true labelled_body))
           (op_of "section" ["again"]) "again" []).
  - by vm_compute.
  - intros _. apply not_elem_of_nil.
  - by vm_compute.
  - by vm_compute.
  - by vm_compute.
  - by vm_compute.
  - apply not_elem_of_nil.
  - by vm_compute.
Defined.

(** ** What the methods leave alone *)

Lemma same_code_stamp store op i : same_code store (alter (with_index i) op store).
Proof.
  intros r o Hr. rewrite lookup_stamp, Hr. simpl. eexists. split; [done|].
  by case_decide.
Qed.

Lemma same_code_trans s1 s2 s3 : same_code s1 s2 → same_code s2 s3 → same_code s1 s3.
Proof.
  intros H12 H23 op o Hop.
  destruct (H12 op o Hop) as (o2 & Hop2 & Heq2).
  destruct (H23 op o2 Hop2) as (o3 & Hop3 & Heq3).
  exists o3. split; [done|]. congruence.
Qed.

Lemma exec_func_loop_keeps func_body i flag (st : Program) :
  let st' := final_state (exec_func_loop func_body i flag st) in
  same_control st st' ∧ same_code (op_store st) (op_store st') ∧
  dict_store st' = dict_store st ∧ states st' = states st.
Proof.
  revert i flag st. induction func_body as [|func_op rest IH]; intros i flag st.
  { simpl. split; [by repeat split|]. split; [|done].
    intros op o ->. by eexists. }
  simpl. unfold set_operation_index. unfold_m. simpl.
  pose proof (same_code_stamp (op_store st) func_op (Some (current_step st))) as Hstamp.
  destruct (alter _ func_op (op_store st) !! func_op) as [o|] eqn:Ho; simpl.
  2: { split; [by repeat split|]. done. }
  destruct (bool_decide (command o = "section") && negb flag).
  - destruct (args o) as [|section_name ?]; simpl.
    { split; [by repeat split|]. done. }
    match goal with |- context [exec_func_loop rest i flag ?s] =>
      destruct (IH i flag s) as (Hc & Hs & -> & ->) end.
    split; [exact Hc|]. split; [|done]. by eapply same_code_trans.
  - match goal with |- context [exec_func_loop rest ?j ?f ?s] =>
      destruct (IH j f s) as (Hc & Hs & -> & ->) end.
    split; [exact Hc|]. split; [|done]. by eapply same_code_trans.
Qed.

(** What [exec_func] leaves alone. *)
Lemma exec_func_keeps_aux func_body with_state (st : Program) :
  let st' := final_state (exec_func func_body with_state st) in
  same_control st st' ∧
  same_code (op_store st) (op_store st') ∧
  (∀ d entries, dict_store st !! d = Some entries →
                dict_store st' !! d = Some entries).
Proof.
  unfold exec_func, copy_dict, new_op. unfold_m. simpl. destruct with_state; simpl.
  - destruct (dict_store st !! variables st) as [entries|]; simpl.
    2: { split; [by repeat split|]. split; [|done].
         intros op o ->. by eexists. }
    destruct (bool_decide (current_step st ∈ runed_functions st)); simpl.
    { split; [by repeat split|]. split.
      - intros op o ->. by eexists.
      - intros d e Hd. by apply lookup_app_l_Some. }
    match goal with |- context [exec_func_loop ?b ?j ?f ?s] =>
      pose proof (exec_func_loop_keeps b j f s) as Hkeep;
      destruct (exec_func_loop b j f s) as [i st1|ex st1|code st1] end;
      simpl in Hkeep |- *; destruct Hkeep as (Hc & Hs & Hd & _).
    + split; [exact Hc|]. split.
      * intros op o Hop. destruct (Hs op o Hop) as (o' & Ho' & Heq).
        exists o'. split; [|done]. by apply lookup_app_l_Some.
      * intros d e He. rewrite Hd. by apply lookup_app_l_Some.
    + split; [exact Hc|]. split; [done|].
      intros d e He. rewrite Hd. by apply lookup_app_l_Some.
    + split; [exact Hc|]. split; [done|].
      intros d e He. rewrite Hd. by apply lookup_app_l_Some.
  - rewrite andb_false_r.
    pose proof (exec_func_loop_keeps func_body (current_step st) false st) as Hkeep.
    destruct (exec_func_loop _ _ _ _) as [i st1|ex st1|code st1];
      simpl in Hkeep |- *; destruct Hkeep as (Hc & Hs & Hd & _);
      (split; [exact Hc|]; split; [done|]; intros d e He; by rewrite Hd).
Qed.

(** X8.  Whether it returns or fails, [exec_func] moves neither the
    program counter nor the mem register (so the value put there for the
    callee is still there when the body starts), and changes neither the
    function table, the try-context, the recorded error, the console nor
    the namespaces.  The operations it found are still there with their
    command, arguments and source text, and the dicts it found have their
    entries. *)
Theorem exec_func_keeps func_body with_state (st : Program) :
  let st' := final_state (exec_func func_body with_state st) in
  same_control st st' ∧
  same_code (op_store st) (op_store st') ∧
  (∀ d entries, dict_store st !! d = Some entries →
                dict_store st' !! d = Some entries).
Proof. apply exec_func_keeps_aux. Qed.

(** X9.  [update_section_indexes] keeps the labels of the section table
    and their order: an entry goes up by at most one, two entries that
    were equal stay equal, and an entry below another stays below it, so
    two labels never come to address the same position. *)
Theorem update_section_indexes_order after_index (st : Program) :
  let st' := update_section_indexes after_index st in
  dom (sections st') = dom (sections st) ∧
  ∀ l1 l2 s1 s2,
    sections st !! l1 = Some s1 →
    sections st !! l2 = Some s2 →
    ∃ s1' s2',
      sections st' !! l1 = Some s1' ∧ sections st' !! l2 = Some s2' ∧
      s1 ≤ s1' ≤ s1 + 1 ∧
      (s1 = s2 → s1' = s2') ∧ (s1 < s2 → s1' < s2').
Proof.
  split.
  - unfold update_section_indexes. simpl. apply dom_fmap_L.
  - intros l1 l2 s1 s2 H1 H2.
    rewrite !update_section_indexes_lookup, H1, H2. simpl.
    eexists _, _. split; [done|]. split; [done|].
    repeat case_bool_decide; lia.
Qed.

(** ** The dispatcher, further *)

(** X10.  While a function definition is open, [run] executes nothing:
    whatever its command, builtin or not and defined or not, the operation
    is appended to the body of the open function and nothing else changes
    but its index.  The exceptions are [popstate], which is run and never
    recorded, and [endfunc], which goes to its handler. *)
Theorem open_definition_records `{Helpers} op o name body (st : Program) :
  op_store st !! op = Some o →
  current_func st = Some name →
  functions st !! name = Some body →
  (command o ≠ "endfunc" → command o ≠ "popstate" →
   run op st =
     Ok tt (put_functions (<[name := body ++ [op]]> (functions st))
              (stamped op st))) ∧
  (command o = "popstate" →
   ∃ st', run op st = Ok tt st' ∧ functions st' = functions st) ∧
  (command o = "endfunc" →
   run op st = run_builtin "endfunc" op (stamped op st)).
Proof.
  intros Hop Hopen Hbody. split; [|split].
  - intros H1 H2. unfold run, set_operation_index. unfold_m. simpl.
    rewrite list_lookup_alter_eq, Hop. simpl.
    rewrite (bool_decide_eq_false_2 _ H1), (bool_decide_eq_false_2 _ H2).
    simpl. rewrite Hopen. simpl. rewrite Hbody. done.
  - intros Hcmd. rewrite (run_popstate op o) by done.
    eexists. split; [done|]. by destruct (states st).
  - intros Hcmd. unfold run, set_operation_index. unfold_m. simpl.
    rewrite list_lookup_alter_eq, Hop. simpl. by rewrite Hcmd.
Qed.

Lemma open_definition_records_witness :
  @run idle_helpers 1%nat defining =
    Ok tt (put_functions (<["f" := [1%nat]]> (functions defining))
             (stamped 1%nat defining)).
Proof.
  destruct (@open_definition_records idle_helpers 1%nat (op_of "out" []) "f" []
              defining) as (Hrecord & _ & _).
  - by vm_compute.
  - by vm_compute.
  - by vm_compute.
  - apply Hrecord; discriminate.
Defined.

(** X11.  A function that a used namespace defines with an empty body is
    not found under its bare name: when it is the last match among the
    used namespaces, the lookup falls through to the global name, and
    with no global function of that name the call is an undefined
    operation. *)
Theorem empty_body_falls_through (st : Program) name before ns after :
  functions st !! (current_namespace st +:+ name) = None →
  used_namespaces st = before ++ ns :: after →
  functions st !! (ns +:+ "." +:+ name) = Some [] →
  (∀ ns', ns' ∈ after → functions st !! (ns' +:+ "." +:+ name) = None) →
  lookup_function name st = functions st !! name.
Proof.
  intros Hcur Hused Hns Hafter. unfold lookup_function. rewrite Hcur.
  rewrite used_namespaces_scan.
  rewrite Hused, reverse_app, reverse_cons, <- app_assoc.
  rewrite list_find_app_r.
  2: { apply list_find_None, Forall_forall. intros ns' Hin.
       apply elem_of_reverse, Hafter in Hin. rewrite Hin. by intros [? ?]. }
  simpl. rewrite Hns. rewrite decide_True by by eexists. simpl. by rewrite Hns.
Qed.

Lemma empty_body_falls_through_witness :
  lookup_function "f" empty_body = functions empty_body !! "f".
Proof.
  apply (empty_body_falls_through empty_body "f" [] "a" []).
  - by vm_compute.
  - by vm_compute.
  - by vm_compute.
  - intros ns' Hin. by apply elem_of_nil in Hin.
Defined.

Lemma call_function_unfold `{Helpers} op o func_body (st : Program) :
  op_store st !! op = Some o →
  call_function op func_body st =
    match (if bool_decide (args_str o ≠ EmptyString)
           then bind (eval_args (args_str o)) (λ v, modify (put_mem v))
           else modify (put_mem (VStr EmptyString))) st with
    | Ok _ st1 =>
        match exec_func func_body true st1 with
        | Raise ex st2 => raise_error "RuntimeError" (exc_str ex) op st2
        | r => r
        end
    | Raise ex st1 => raise_error "RuntimeError" (exc_str ex) op st1
    | Exit code st1 => Exit code st1
    end.
Proof.
  intros Hop. unfold call_function, try_except, bind at 1 2, get_op.
  rewrite Hop. simpl.
  destruct (bool_decide (args_str o ≠ EmptyString)); simpl.
  - unfold bind. destruct (eval_args (args_str o) st) as [v st1|?|?]; simpl; [|done..].
    unfold modify. by destruct (exec_func func_body true _).
  - unfold bind, modify. by destruct (exec_func func_body true _).
Qed.

(** X12.  A call seen whole.  When the dispatcher runs an operation whose
    command resolves to a function, at a call site not run before, and
    the argument text (if any) evaluates to [v] without touching the
    program, then: the mem register holds [v], or the empty string when
    there is no argument text; one frame is pushed, with the program
    counter as entry point; the body and the [popstate] marker are in the
    stream right after the program counter; and the program counter has
    not moved, so that the next turn of the main loop starts the body. *)
Theorem run_call `{Helpers} op o func_body v (st : Program) :
  op_store st !! op = Some o →
  command o ∉ "endfunc" :: "popstate" :: "pass" :: builtin_commands →
  current_func st = None →
  lookup_function (command o) st = Some func_body →
  (if bool_decide (args_str o ≠ EmptyString)
   then eval_args (args_str o) (stamped op st) = Ok v (stamped op st)
   else v = VStr EmptyString) →
  is_Some (dict_store st !! variables st) →
  current_step st ∉ runed_functions st →
  0 ≤ current_step st < Z.of_nat (length (operations st)) →
  body_wf (op_store st) func_body false = true →
  ∃ st',
    run op st = Ok tt st' ∧
    mem st' = v ∧
    current_step st' = current_step st ∧
    states st' =
      states st ++ [mkFrame (current_step st) (length (dict_store st))] ∧
    operations st' =
      take (Z.to_nat (current_step st + 1)) (operations st)
        ++ spliced_ops (op_store st) func_body false
        ++ [length (op_store st)]
        ++ drop (Z.to_nat (current_step st + 1)) (operations st) ∧
    op_store st' !! length (op_store st) = Some parse_popstate.
Proof.
  intros Hop Hcmd Hopen Hfound Heval [entries Hvars] Hnot Hpc Hwf.
  rewrite (run_invoke op o), Hfound by done.
  assert (op_store (stamped op st) !! op
          = Some (with_index (Some (current_step st)) o)) as Hop'.
  { unfold stamped, set_operation_index, modify. simpl.
    by rewrite list_lookup_alter_eq, Hop. }
  rewrite (call_function_unfold op _ func_body (stamped op st) Hop').
  change (args_str (with_index (Some (current_step st)) o)) with (args_str o).
  set (s2 := put_mem v (stamped op st)).
  assert ((if bool_decide (args_str o ≠ EmptyString)
           then bind (eval_args (args_str o)) (λ v, modify (put_mem v))
           else modify (put_mem (VStr EmptyString))) (stamped op st)
          = Ok tt s2) as ->.
  { destruct (bool_decide (args_str o ≠ EmptyString)).
    - unfold bind. by rewrite Heval.
    - by subst v. }
  destruct (proj2 (exec_func_returns_iff_aux func_body true s2)) as [st' Hrun].
  { split; [intros _; by exists entries|]. right.
    unfold s2, stamped, set_operation_index, modify. simpl.
    by rewrite body_wf_stamp. }
  rewrite Hrun. exists st'. split; [done|].
  pose proof (exec_func_keeps_aux func_body true s2) as Hkeep.
  rewrite Hrun in Hkeep. simpl in Hkeep.
  destruct Hkeep as ((Hpc' & Hmem & _) & _ & _).
  destruct (exec_func_layout func_body true s2 st') as [Hops Hmark];
    [done|done|done|].
  apply exec_func_call in Hrun as (? & _ & Hst & _).
  unfold s2, stamped, set_operation_index, modify in Hops, Hmark. simpl in Hops, Hmark.
  rewrite spliced_ops_stamp, length_alter in Hops. rewrite length_alter in Hmark.
  split; [done|]. split; [done|]. split; [done|]. split; [done|].
  by apply Hmark.
Qed.

Lemma run_call_witness :
  ∃ st',
    @run idle_helpers 0%nat calling = Ok tt st' ∧
    mem st' = VStr EmptyString ∧
    current_step st' = 0 ∧
    states st' = [mkFrame 0 1%nat] ∧
    operations st' = [0%nat; 1%nat; 2%nat] ∧
    op_store st' !! 2%nat = Some parse_popstate.
Proof.
  apply (@run_call idle_helpers 0%nat (op_of "f" []) [1%nat] (VStr EmptyString)
           calling).
  - by vm_compute.
  - apply (bool_decide_unpack _). by vm_compute.
  - by vm_compute.
  - by vm_compute.
  - by vm_compute.
  - by eexists.
  - apply not_elem_of_nil.
  - by vm_compute.
  - by vm_compute.
Defined.

(** With all its operations in the store, the loop of [exec_func] can only
    fail on a section without label. *)
Lemma exec_func_loop_raise_kind func_body i flag (st : Program) ex st' :
  Forall (λ op, is_Some (op_store st !! op)) func_body →
  exec_func_loop func_body i flag st = Raise ex st' →
  ex = index_error.
Proof.
  revert i flag st. induction func_body as [|func_op rest IH];
    intros i flag st Hall; [done|].
  apply Forall_cons in Hall as [[p Hp] Hall].
  simpl. unfold set_operation_index. unfold_m. simpl.
  rewrite list_lookup_alter_eq, Hp. simpl.
  assert (∀ s : Program,
            op_store s = alter (with_index (Some (current_step st))) func_op (op_store st) →
            Forall (λ op, is_Some (op_store s !! op)) rest) as Hall'.
  { intros s ->. eapply Forall_impl; [exact Hall|]. simpl.
    intros r [x Hx]. rewrite lookup_stamp, Hx. by eexists. }
  destruct (bool_decide (command p = "section") && negb flag).
  - destruct (args p); simpl; [by intros [= <- _]|].
    apply IH. by apply Hall'.
  - apply IH. by apply Hall'.
Qed.

(** X13.  A function whose body holds a section without label cannot be
    called: in test mode, with no try armed, the call records a
    [RuntimeError] with the message [list index out of range] against the
    calling operation.  The frame pushed for the call stays on the stack,
    no [popstate] marker is made, and the call site counts as run. *)
Theorem call_with_unlabelled_section `{Helpers} op o func_body (st : Program) :
  op_store st !! op = Some o →
  command o ∉ "endfunc" :: "popstate" :: "pass" :: builtin_commands →
  current_func st = None →
  lookup_function (command o) st = Some func_body →
  args_str o = EmptyString →
  is_Some (dict_store st !! variables st) →
  current_step st ∉ runed_functions st →
  Forall (λ r, is_Some (op_store st !! r)) func_body →
  body_wf (op_store st) func_body false = false →
  is_in_try st = None →
  is_test st = true →
  ∃ st',
    run op st = Ok tt st' ∧
    runtime_error st' = Some ("RuntimeError", "list index out of range", op) ∧
    states st' =
      states st ++ [mkFrame (current_step st) (length (dict_store st))] ∧
    current_step st ∈ runed_functions st' ∧
    length (op_store st') = length (op_store st) ∧
    current_step st' = current_step st.
Proof.
  intros Hop Hcmd Hopen Hfound Hargs Hvars Hnot Hall Hwf Htry Htest.
  rewrite (run_invoke op o), Hfound by done.
  assert (op_store (stamped op st) !! op
          = Some (with_index (Some (current_step st)) o)) as Hop'.
  { unfold stamped, set_operation_index, modify. simpl.
    by rewrite list_lookup_alter_eq, Hop. }
  rewrite (call_function_unfold op _ func_body (stamped op st) Hop').
  change (args_str (with_index (Some (current_step st)) o)) with (args_str o).
  rewrite Hargs. simpl. unfold modify.
  set (s2 := put_mem (VStr EmptyString) (stamped op st)).
  destruct (exec_func_fails func_body s2) as (ex & st2 & Hrun & Hst & Hruned & Hpc & Hlen & _).
  { done. }
  { done. }
  { unfold s2, stamped, set_operation_index, modify. simpl.
    by rewrite body_wf_stamp. }
  rewrite Hrun.
  pose proof (exec_func_keeps_aux func_body true s2) as Hkeep.
  rewrite Hrun in Hkeep. simpl in Hkeep.
  destruct Hkeep as ((_ & _ & _ & Htry2 & _ & _ & _ & Htest2 & _) & _ & _).
  assert (ex = index_error) as ->.
  { destruct (dict_store st !! variables st) as [entries|] eqn:Hd;
      [|by destruct Hvars].
    rewrite (exec_func_unfold_call func_body s2 entries) in Hrun by done.
    match type of Hrun with context [exec_func_loop ?b ?j ?f ?s] =>
      pose proof (exec_func_loop_raise_kind b j f s) as Hkind;
      destruct (exec_func_loop b j f s) as [?|ex' st3|?] end; [done| |done].
    inversion Hrun; subst ex' st3. eapply Hkind; [|done].
    eapply Forall_impl; [exact Hall|]. simpl.
    unfold stamped, set_operation_index, modify. simpl.
    intros r [x Hx]. rewrite lookup_stamp, Hx. by eexists. }
  rewrite raise_error_harness by (by rewrite ?Htry2, ?Htest2).
  eexists. split; [done|]. simpl. split; [done|]. split; [done|].
  split; [|split; [|done]].
  - rewrite Hruned. apply elem_of_app. right. apply list_elem_of_here.
  - rewrite Hlen. unfold s2, stamped, set_operation_index, modify. simpl.
    by rewrite length_alter.
Qed.

Lemma call_with_unlabelled_section_witness :
  ∃ st',
    @run idle_helpers 0%nat unlabelled_body = Ok tt st' ∧
    runtime_error st' =
      Some ("RuntimeError", "list index out of range", 0%nat) ∧
    states st' = [mkFrame 0 1%nat] ∧
    0 ∈ runed_functions st'.
Proof.
  destruct (@call_with_unlabelled_section idle_helpers 0%nat (op_of "f" [])
              [1%nat] unlabelled_body)
    as (st' & Hrun & Herr & Hstates & Hruned & _).
  - by vm_compute.
  - apply (bool_decide_unpack _). by vm_compute.
  - by vm_compute.
  - by vm_compute.
  - by vm_compute.
  - by eexists.
  - apply not_elem_of_nil.
  - constructor; [by eexists|constructor].
  - by vm_compute.
  - by vm_compute.
  - by vm_compute.
  - exists st'. split; [exact Hrun|]. split; [exact Herr|].
    split; [exact Hstates|exact Hruned].
Defined.

(** ** Setting up and running the stream *)

Lemma lookup_seq_fmap {A} (before l after : list A) :
  (λ r, (before ++ l ++ after) !! r) <$> seq (length before) (length l)
  = Some <$> l.
Proof.
  apply list_eq. intros k. rewrite !list_lookup_fmap.
  destruct (decide (k < length l)%nat) as [Hlt|Hge].
  - rewrite lookup_seq_lt by done. simpl.
    rewrite lookup_app_r by lia.
    replace (length before + k - length before)%nat with k by lia.
    rewrite lookup_app_l by done.
    by destruct (lookup_lt_is_Some_2 l k Hlt) as [x ->].
  - rewrite lookup_seq_ge by lia. simpl.
    by rewrite lookup_ge_None_2 by lia.
Qed.

(** X14.  [set_operations] puts the two operations of the prelude, in
    their order, in front of the operations of the program, which follow
    in their own order; this holds for the empty program too. *)
Theorem set_operations_order tmp0 tmp1 ops (st : Program) :
  ∃ st',
    set_operations tmp0 tmp1 ops st = Ok tt st' ∧
    stream st' = Some <$> (tmp0 :: tmp1 :: ops) ∧
    length (operations st') = (length ops + 2)%nat ∧
    ops_allocated st' ∧
    sections st' = sections st ∧ states st' = states st.
Proof.
  assert (set_operations tmp0 tmp1 ops st =
          Ok tt (put_operations
                   (length (op_store st ++ ops) :: S (length (op_store st ++ ops))
                      :: seq (length (op_store st)) (length ops))
                   (put_op_store (op_store st ++ ops ++ [tmp0; tmp1]) st))) as Hrun.
  { unfold set_operations, new_op. unfold_m. cbn -[py_insert seq].
    rewrite (py_insert_in_range _ 0) by lia. cbn -[py_insert seq].
    rewrite py_insert_in_range by (simpl; lia). cbn -[seq].
    change (Z.to_nat 0) with 0%nat. change (Z.to_nat 1) with 1%nat.
    cbn [take drop app]. rewrite (length_app _ [tmp0]).
    unfold put_operations, put_op_store. cbn -[seq]. rewrite <- !app_assoc.
    by replace (length (op_store st ++ ops) + 1)%nat
      with (S (length (op_store st ++ ops))) by lia. }
  eexists. split; [exact Hrun|]. unfold stream, ops_allocated.
  cbn -[seq]. split; [|split; [|split; [|done]]].
  - f_equal; [|f_equal].
    + rewrite app_assoc, lookup_app_r by done. by rewrite Nat.sub_diag.
    + rewrite app_assoc, lookup_app_r by lia.
      by replace (S (length (op_store st ++ ops)) - length (op_store st ++ ops))%nat
        with 1%nat by lia.
    + apply (lookup_seq_fmap (op_store st) ops [tmp0; tmp1]).
  - rewrite length_seq. lia.
  - rewrite !length_app. simpl. repeat apply Forall_cons_2; [lia|lia|].
    apply Forall_forall. intros r Hr. apply elem_of_seq in Hr. lia.
Qed.

(** X15.  The main loop turns any exception of a builtin into an error
    of the program.  When the handler of the operation at the program
    counter leaves by an exception, and has left that operation in place,
    the error is raised as a [RuntimeError] with [str(ex)], the text that
    the exception carries, against the operation; in test mode with no try
    armed it is recorded and the program counter moves on by one. *)
Theorem builtin_exception_converted `{Helpers} op o ex (st st1 : Program) :
  py_getitem (operations st) (current_step st) = Some op →
  op_store st !! op = Some o →
  command o ∈ builtin_commands →
  current_func st = None →
  run_builtin (command o) op (stamped op st) = Raise ex st1 →
  py_getitem (operations st1) (current_step st1) = Some op →
  (step st =
     (raise_error "RuntimeError" (exc_str ex) op >>
      modify (λ s, put_current_step (current_step s + 1) s)) (stamped op st1)) ∧
  (is_in_try st1 = None → is_test st1 = true →
   ∃ st',
     step st = Ok tt st' ∧
     runtime_error st' = Some ("RuntimeError", exc_str ex, op) ∧
     current_step st' = current_step st1 + 1) ∧
  (∀ text, ex ∈ [KeyError text; IndexError text; Exception text] →
           exc_str ex = text).
Proof.
  intros Hpc Hop Hcmd Hopen Hraise Hpc1.
  assert (run op st = Raise ex st1) as Hrun.
  { unfold run, set_operation_index. unfold_m. simpl.
    rewrite list_lookup_alter_eq, Hop. simpl.
    assert (command o ≠ "endfunc" ∧ command o ≠ "popstate") as [H1 H2].
    { split; intros Heq; rewrite Heq in Hcmd; revert Hcmd;
        apply (bool_decide_unpack _); by vm_compute. }
    rewrite (bool_decide_eq_false_2 _ H1), (bool_decide_eq_false_2 _ H2).
    simpl. rewrite Hopen. simpl. by rewrite bool_decide_eq_true_2. }
  assert (step st =
     (raise_error "RuntimeError" (exc_str ex) op >>
      modify (λ s, put_current_step (current_step s + 1) s)) (stamped op st1))
    as Hstep.
  { unfold step, try_except, bind at 1 2 3, gets. rewrite Hpc, Hrun.
    unfold bind at 1 2 3. rewrite Hpc1. reflexivity. }
  split; [exact Hstep|]. split.
  - intros Htry Htest. rewrite Hstep. unfold bind.
    rewrite raise_error_harness by done. eexists. split; [done|]. done.
  - intros text Hin. rewrite !elem_of_cons in Hin.
    destruct Hin as [->|[->|[->|Hin]]]; try done. by apply elem_of_nil in Hin.
Qed.

Lemma builtin_exception_converted_witness :
  ∃ st',
    @step failing_helpers at_builtin = Ok tt st' ∧
    runtime_error st' = Some ("RuntimeError", "no such file", 1%nat) ∧
    current_step st' = 1.
Proof.
  destruct (@builtin_exception_converted failing_helpers 1%nat (op_of "out" [])
              (Exception "no such file") at_builtin (stamped 1%nat at_builtin))
    as (_ & Hrecorded & _).
  - by vm_compute.
  - by vm_compute.
  - apply (bool_decide_unpack _). by vm_compute.
  - by vm_compute.
  - by vm_compute.
  - by vm_compute.
  - apply Hrecorded; reflexivity.
Defined.

(** ** The link pass, further *)

Lemma flag_after_step (st : Program) n count flag :
  flag_after st n (S count) flag =
  flag_after st (S n) count
    (match op_text st n with
     | Some (cmd, _) => func_toggle flag cmd
     | None => flag
     end).
Proof. done. Qed.

(** The link pass stops at the first section outside a function
    definition that has no label. *)
Lemma load_sections_fails todo :
  ∀ n flag (st : Program) pos,
    length (operations st) = (n + todo)%nat →
    ops_allocated st →
    (n ≤ pos)%nat →
    op_text st pos = Some ("section", []) →
    flag_after st n (pos - n) flag = false →
    ∃ st', load_sections todo (Z.of_nat n) flag st = Raise index_error st' ∧
           console st' = console st ∧ states st' = states st.
Proof.
  induction todo as [|todo IH]; intros n flag st pos Hlen Halloc Hle Htext Hflag.
  { exfalso. unfold op_text in Htext.
    rewrite lookup_ge_None_2 in Htext by lia. done. }
  destruct (lookup_lt_is_Some_2 (operations st) n) as [op Hop]; [lia|].
  assert (op < length (op_store st))%nat as Hlt.
  { unfold ops_allocated in Halloc. rewrite Forall_forall in Halloc.
    apply Halloc. by eapply list_elem_of_lookup_2. }
  destruct (lookup_lt_is_Some_2 (op_store st) op Hlt) as [o Ho].
  pose proof (op_text_Some st n op o Hop Ho) as Htext_n.
  set (st_s := put_op_store
                 (alter (with_index (Some (current_step st))) op (op_store st)) st).
  (* going on behind position [n] *)
  assert (Hnext : ∀ flag' (st2 : Program),
            flag' = func_toggle flag (command o) →
            (n < pos)%nat →
            length (operations st2) = length (operations st) →
            ops_allocated st2 →
            (∀ p, (S n ≤ p)%nat → op_text st2 p = op_text st p) →
            console st2 = console st → states st2 = states st →
            ∃ st', load_sections todo (Z.of_nat (S n)) flag' st2 = Raise index_error st' ∧
                   console st' = console st ∧ states st' = states st).
  { intros flag' st2 -> Hlt' Hlen2 Halloc2 Hagree Hcon Hsts.
    destruct (IH (S n) (func_toggle flag (command o)) st2 pos)
      as (st' & Hrun & Hc & Hs); try done; try lia.
    - by rewrite Hagree by lia.
    - rewrite (flag_after_agree st st2 (S n)) by (done || lia).
      replace (pos - n)%nat with (S (pos - S n)) in Hflag by lia.
      by rewrite flag_after_step, Htext_n in Hflag.
    - exists st'. split; [done|]. split; congruence. }
  assert (Halloc_s : ops_allocated st_s).
  { unfold ops_allocated. simpl. by rewrite length_alter. }
  assert (Hhere : pos = n → command o = "section" ∧ args o = [] ∧ flag = false).
  { intros ->. rewrite Htext_n in Htext. inversion Htext.
    replace (n - n)%nat with 0%nat in Hflag by lia. done. }
  simpl. unfold set_operation_index. unfold_m. simpl.
  rewrite py_getitem_nonneg, Nat2Z.id, Hop by lia. simpl.
  rewrite list_lookup_alter_eq, Ho. simpl. fold st_s.
  replace (Z.of_nat n + 1) with (Z.of_nat (S n)) by lia.
  destruct (decide (pos = n)) as [Heq|Hne].
  { destruct (Hhere Heq) as (Hcmd & Hargs & ->).
    rewrite Hcmd, Hargs. simpl. by eexists. }
  assert (n < pos)%nat as Hlt' by lia.
  destruct (bool_decide (command o = "section")) eqn:Hsec.
  - apply bool_decide_eq_true_1 in Hsec. destruct flag.
    { apply Hnext; try done.
      - unfold func_toggle. by rewrite Hsec.
      - intros p _. apply op_text_stamp. }
    destruct (args o) as [|arg more] eqn:Hargs.
    { by eexists. }
    unfold new_op. simpl. rewrite py_setitem_nat by lia. simpl.
    apply Hnext; try done.
    + unfold func_toggle. by rewrite Hsec.
    + simpl. by rewrite length_insert.
    + unfold ops_allocated. simpl. rewrite length_app, length_alter. simpl.
      apply Forall_insert; [|lia].
      unfold ops_allocated in Halloc. eapply Forall_impl; [exact Halloc|].
      simpl. intros; lia.
    + intros p Hp. rewrite <- (op_text_stamp st op (Some (current_step st)) p).
      unfold op_text. simpl. rewrite list_lookup_insert_ne by lia.
      destruct (operations st !! p) as [r|] eqn:Hr; [|done]. simpl.
      rewrite lookup_app_l; [done|]. rewrite length_alter.
      unfold ops_allocated in Halloc. rewrite Forall_forall in Halloc.
      apply Halloc. by eapply list_elem_of_lookup_2.
  - apply bool_decide_eq_false_1 in Hsec.
    destruct (bool_decide (command o = "func")) eqn:Hfunc;
      [|destruct (bool_decide (command o = "endfunc")) eqn:Hend];
      (apply Hnext; try done;
       [unfold func_toggle; by rewrite ?Hfunc, ?Hend
       |intros p _; apply op_text_stamp]).
Qed.

(** X16.  A section operation without label outside a function
    definition stops the program before its first operation runs: the
    link pass of [start] leaves by [IndexError], whatever the fuel, with
    nothing printed and the call stack as it was. *)
Theorem start_fails_on_unlabelled_section `{Helpers} fuel (st : Program) pos :
  ops_allocated st →
  op_text st pos = Some ("section", []) →
  flag_after st 0 pos false = false →
  ∃ st',
    start fuel st = Raise (IndexError "list index out of range") st' ∧
    console st' = console st ∧ states st' = states st.
Proof.
  intros Halloc Htext Hflag.
  destruct (load_sections_fails (length (operations st)) 0 false
              (put_current_step 0 st) pos)
    as (st' & Hrun & Hcon & Hsts); [done|done|lia|done| |].
  { rewrite Nat.sub_0_r.
    rewrite (flag_after_agree st (put_current_step 0 st) 0) by (done || lia).
    done. }
  exists st'. split; [|done].
  change (Z.of_nat 0) with 0 in Hrun.
  unfold start, link. unfold_m.
  change (operations (put_current_step 0 st)) with (operations st).
  by rewrite Hrun.
Qed.

Lemma start_fails_on_unlabelled_section_witness :
  ∃ st',
    @start idle_helpers 10 unlabelled_section =
      Raise (IndexError "list index out of range") st' ∧
    console st' = [] ∧ states st' = [].
Proof.
  apply (@start_fails_on_unlabelled_section idle_helpers 10 unlabelled_section 1).
  - unfold ops_allocated. simpl. repeat constructor.
  - by vm_compute.
  - by vm_compute.
Defined.

Lemma declares_dec (st : Program) from flag pos :
  (∃ label, declares st from flag pos label) ∨
  (∀ label, ¬ declares st from flag pos label).
Proof.
  unfold declares.
  destruct (decide (from ≤ pos)%nat) as [Hle|Hgt]; [|right; by intros ? (? & _)].
  destruct (flag_after st from (pos - from) flag) eqn:Hflag;
    [right; by intros ? (_ & _ & ?)|].
  destruct (op_text st pos) as [[cmd [|label more]]|] eqn:Htext.
  - right. by intros ? (_ & [? ?] & _).
  - destruct (decide (cmd = "section")) as [->|Hne].
    + left. exists label. split; [done|]. split; [by eexists|done].
    + right. intros ? (_ & [? Heq] & _). congruence.
  - right. by intros ? (_ & [? ?] & _).
Qed.

(** After the link pass an operation says what it said before, unless it
    was a declaration, which now says [pass]. *)
Lemma link_post_text (st st' : Program) n flag pos :
  ops_allocated st →
  link_post st n flag st' →
  (n ≤ pos)%nat →
  ((∃ label more, op_text st pos = Some ("section", label :: more))
   ∧ op_text st' pos = Some ("pass", [])) ∨
  op_text st' pos = op_text st pos.
Proof.
  intros Halloc (_ & _ & Hstore & _ & Hdecl & Hkeep) Hle.
  destruct (declares_dec st n flag pos) as [[label Hd]|Hnone].
  - left. split; [|by apply (Hdecl pos label)].
    destruct Hd as (_ & [more ?] & _). by eexists _, _.
  - right. unfold op_text. rewrite (Hkeep pos Hle Hnone).
    destruct (operations st !! pos) as [r|] eqn:Hr; [|done]. simpl.
    assert (r < length (op_store st))%nat as Hlt.
    { unfold ops_allocated in Halloc. rewrite Forall_forall in Halloc.
      apply Halloc. by eapply list_elem_of_lookup_2. }
    destruct (lookup_lt_is_Some_2 (op_store st) r Hlt) as [o Ho].
    destruct (Hstore r o Ho) as (o' & -> & Hc & Ha). rewrite Ho. simpl.
    by rewrite Hc, Ha.
Qed.

Lemma flag_after_toggle_agree (st st2 : Program) :
  (∀ p flag,
     match op_text st2 p with
     | Some (cmd, _) => func_toggle flag cmd
     | None => flag
     end =
     match op_text st p with
     | Some (cmd, _) => func_toggle flag cmd
     | None => flag
     end) →
  ∀ count pos flag, flag_after st2 pos count flag = flag_after st pos count flag.
Proof.
  intros Hagree count. induction count as [|count IH]; intros pos flag; [done|].
  simpl. rewrite Hagree. apply IH.
Qed.

(** X17.  When the link pass is over, no section declaration is left
    outside the function definitions: every [section] operation still in
    the stream is behind a [func] that no [endfunc] has closed, as the
    link pass counts them. *)
Theorem no_section_left_after_link (st : Program) :
  ops_allocated st →
  labelled_from st 0 false →
  ∃ st',
    link st = Ok tt st' ∧
    ∀ pos arguments,
      op_text st' pos = Some ("section", arguments) →
      flag_after st' 0 pos false = true.
Proof.
  intros Halloc Hlab.
  set (st0 := put_current_step 0 st).
  assert (Hagree0 : ∀ p, op_text st0 p = op_text st p) by done.
  destruct (load_sections_spec (length (operations st)) 0 false st0)
    as (st1 & Hrun & Hpost); [done|done|by apply (labelled_agree st)|].
  exists (put_current_step 0 st1). split.
  { change (Z.of_nat 0) with 0 in Hrun. unfold link. unfold_m.
    change (operations (put_current_step 0 st)) with (operations st).
    fold st0. by rewrite Hrun. }
  assert (Htext : ∀ p,
            ((∃ label more, op_text st p = Some ("section", label :: more))
             ∧ op_text st1 p = Some ("pass", [])) ∨
            op_text st1 p = op_text st p).
  { intros p. destruct (link_post_text st0 st1 0 false p) as [?|?];
      [done|done|lia|by left|by right]. }
  assert (Hflag : ∀ count p flag,
            flag_after st1 p count flag = flag_after st p count flag).
  { apply flag_after_toggle_agree. intros p flag.
    destruct (Htext p) as [[(label & more & ->) ->]| ->]; done. }
  intros pos arguments Hsec.
  change (op_text (put_current_step 0 st1) pos) with (op_text st1 pos) in Hsec.
  rewrite (flag_after_agree st1 (put_current_step 0 st1) 0) by (done || lia).
  rewrite Hflag.
  destruct (flag_after st 0 pos false) eqn:Hf; [done|]. exfalso.
  destruct (Htext pos) as [[_ Hpass]|Hsame]; [congruence|].
  rewrite Hsame in Hsec.
  destruct arguments as [|label more].
  - specialize (Hlab pos ltac:(lia) Hsec). rewrite Nat.sub_0_r in Hlab. congruence.
  - destruct Hpost as (_ & _ & _ & _ & Hdecl & _).
    destruct (Hdecl pos label) as [Hpass _].
    + split; [lia|]. split; [by exists more|].
      rewrite Nat.sub_0_r.
      by rewrite (flag_after_agree st st0 0) by (done || lia).
    + rewrite Hsame in Hpass. rewrite Hsec in Hpass. done.
Qed.

Lemma no_section_left_after_link_witness :
  ∃ st',
    link unlinked = Ok tt st' ∧
    ∀ pos arguments,
      op_text st' pos = Some ("section", arguments) →
      flag_after st' 0 pos false = true.
Proof.
  apply (no_section_left_after_link unlinked).
  - unfold ops_allocated. simpl. repeat constructor.
  - intros pos _ Htext.
    do 5 (destruct pos as [|pos]; [vm_compute in Htext; discriminate Htext|]).
    vm_compute in Htext. discriminate Htext.
Defined.

(** ** Running to the end *)

Lemma step_ok `{Helpers} op (st s : Program) :
  py_getitem (operations st) (current_step st) = Some op →
  run op st = Ok tt s →
  step st = Ok tt (put_current_step (current_step s + 1) s).
Proof.
  intros Hpc Hrun. unfold step, try_except, bind, gets, modify.
  by rewrite Hpc, Hrun.
Qed.

(** The main loop over a tail of [pass] operations. *)
Lemma main_loop_passes `{Helpers} k :
  ∀ fuel (st : Program),
    (k ≤ fuel)%nat →
    current_func st = None →
    0 ≤ current_step st →
    Z.of_nat (length (operations st)) = current_step st + Z.of_nat k →
    (∀ pos, (Z.to_nat (current_step st) ≤ pos < length (operations st))%nat →
            ∃ a, op_text st pos = Some ("pass", a)) →
    ∃ st',
      main_loop fuel st = Ok true st' ∧
      current_step st' = Z.of_nat (length (operations st)) ∧
      operations st' = operations st ∧ sections st' = sections st ∧
      states st' = states st ∧ runtime_error st' = runtime_error st ∧
      console st' = console st ∧ mem st' = mem st.
Proof.
  induction k as [|k IH]; intros fuel st Hfuel Hopen Hpc Hlen Hpass.
  { exists st. split; [|by repeat split; try lia].
    destruct fuel; simpl; unfold_m; simpl.
    - by rewrite bool_decide_eq_true_2 by lia.
    - by rewrite bool_decide_eq_false_2 by lia. }
  destruct fuel as [|fuel]; [lia|].
  destruct (Hpass (Z.to_nat (current_step st))) as [a Htext]; [lia|].
  unfold op_text in Htext.
  destruct (operations st !! Z.to_nat (current_step st)) as [op|] eqn:Hop;
    [|done]. simpl in Htext.
  destruct (op_store st !! op) as [o|] eqn:Ho; [|done]. simpl in Htext.
  assert (command o = "pass") as Hcmd by congruence.
  destruct (run_pass op o st Ho Hcmd) as (after & Hrun & _ & _ & _ & Hafter).
  rewrite (Hafter Hopen) in Hrun. clear Hafter after.
  assert (py_getitem (operations st) (current_step st) = Some op) as Hget
    by by rewrite py_getitem_nonneg.
  pose proof (step_ok op st (stamped op st) Hget Hrun) as Hstep.
  set (st2 := put_current_step (current_step (stamped op st) + 1) (stamped op st))
    in Hstep.
  destruct (IH fuel st2) as (st' & Hloop & Hend & Hops & Hsec & Hst & Herr & Hcon & Hmem).
  - lia.
  - done.
  - simpl. lia.
  - simpl. lia.
  - intros pos Hpos. simpl in Hpos.
    destruct (Hpass pos) as [a' Ha']; [lia|]. exists a'.
    rewrite <- Ha'. apply (op_text_stamp st op (Some (current_step st)) pos).
  - exists st'. split.
    + simpl. unfold_m. simpl. rewrite bool_decide_eq_true_2 by lia.
      unfold bind in Hstep |- *. by rewrite Hstep.
    + done.
Qed.

(** The link pass works on the stream, the operations and the section
    table, and on nothing else. *)
Lemma load_sections_keeps todo :
  ∀ i flag (st st' : Program),
    load_sections todo i flag st = Ok tt st' →
    current_func st' = current_func st ∧ states st' = states st ∧
    runtime_error st' = runtime_error st ∧ console st' = console st ∧
    mem st' = mem st.
Proof.
  induction todo as [|todo IH]; intros i flag st st' Hrun.
  { by inversion Hrun. }
  simpl in Hrun. unfold set_operation_index, new_op in Hrun.
  unfold bind, gets, modify, ret, throw, get_op in Hrun. simpl in Hrun.
  destruct (py_getitem (operations st) i) as [op|]; [|done].
  simpl in Hrun.
  destruct (alter (with_index (Some (current_step st))) op (op_store st) !! op)
    as [o|]; [|done].
  destruct (bool_decide (command o = "section")).
  - destruct flag; [by apply IH in Hrun|].
    destruct (args o) as [|arg more]; [done|]. simpl in Hrun.
    destruct (py_setitem (operations st) i _) as [ops'|]; [|done].
    by apply IH in Hrun.
  - destruct (bool_decide (command o = "func")); [by apply IH in Hrun|].
    destruct (bool_decide (command o = "endfunc")); by apply IH in Hrun.
Qed.

Lemma flag_after_idle (st : Program) :
  (∀ pos cmd a, op_text st pos = Some (cmd, a) → cmd = "pass" ∨ cmd = "section") →
  ∀ count pos, flag_after st pos count false = false.
Proof.
  intros Hcmds count. induction count as [|count IH]; intros pos; [done|].
  simpl. destruct (op_text st pos) as [[cmd a]|] eqn:Htext; [|apply IH].
  destruct (Hcmds pos cmd a Htext) as [-> | ->]; apply IH.
Qed.

(** X18.  A program of labels only runs to its end.  When the stream
    holds nothing but [pass] operations and [section] operations with a
    label, and no function definition is open, [start] returns as soon as
    the fuel covers the length of the stream: the program counter is
    behind the last operation, every label of the program is in the
    section table with the address behind one of its declarations, and no
    error is recorded, nothing is printed and no frame is pushed. *)
Theorem labels_only_program_runs `{Helpers} fuel (st : Program) :
  ops_allocated st →
  current_func st = None →
  (∀ pos cmd a, op_text st pos = Some (cmd, a) →
                cmd = "pass" ∨ (cmd = "section" ∧ a ≠ [])) →
  (length (operations st) ≤ fuel)%nat →
  ∃ st',
    start fuel st = Ok true st' ∧
    current_step st' = Z.of_nat (length (operations st)) ∧
    length (operations st') = length (operations st) ∧
    (∀ pos label more,
       op_text st pos = Some ("section", label :: more) →
       ∃ last, (pos ≤ last)%nat ∧
               (∃ more', op_text st last = Some ("section", label :: more')) ∧
               sections st' !! label = Some (Z.of_nat last + 1)) ∧
    runtime_error st' = runtime_error st ∧ console st' = console st ∧
    states st' = states st ∧ mem st' = mem st.
Proof.
  intros Halloc Hopen Hcmds Hfuel.
  set (st0 := put_current_step 0 st).
  assert (Hidle : ∀ count pos, flag_after st0 pos count false = false).
  { apply flag_after_idle. intros pos cmd a Htext.
    destruct (Hcmds pos cmd a Htext) as [?|[? _]]; [by left|by right]. }
  destruct (load_sections_spec (length (operations st)) 0 false st0)
    as (st1 & Hrun & Hpost); [done|done| |].
  { intros pos _ Htext. destruct (Hcmds pos _ _ Htext) as [?|[_ ?]]; done. }
  change (Z.of_nat 0) with 0 in Hrun.
  destruct (load_sections_keeps _ _ _ _ _ Hrun) as (Hcf & Hsts & Herr & Hcon & Hmem).
  pose proof Hpost as (Hlen & _ & _ & _ & Hdecl & _).
  assert (Hpass : ∀ pos, (pos < length (operations st))%nat →
                         ∃ a, op_text st1 pos = Some ("pass", a)).
  { intros pos Hpos.
    destruct (link_post_text st0 st1 0 false pos) as [[_ Hp]|Hsame];
      [done|done|lia|by eexists|].
    rewrite Hsame.
    destruct (lookup_lt_is_Some_2 (operations st) pos Hpos) as [op Hop].
    assert (op < length (op_store st))%nat as Hlt.
    { unfold ops_allocated in Halloc. rewrite Forall_forall in Halloc.
      apply Halloc. by eapply list_elem_of_lookup_2. }
    destruct (lookup_lt_is_Some_2 (op_store st) op Hlt) as [o Ho].
    pose proof (op_text_Some st pos op o Hop Ho) as Htext.
    change (op_text st0 pos) with (op_text st pos). rewrite Htext.
    destruct (Hcmds pos _ _ Htext) as [Hc|[Hc Ha]].
    - rewrite Hc. by eexists.
    - exfalso. destruct (args o) as [|label more] eqn:Hargs; [done|].
      destruct (Hdecl pos label) as [Hp _].
      + split; [lia|]. split; [|apply Hidle].
        exists more. change (op_text st0 pos) with (op_text st pos).
        by rewrite Htext, Hc.
      + rewrite Hsame in Hp. change (op_text st0 pos) with (op_text st pos) in Hp.
        rewrite Htext, Hc in Hp. done. }
  destruct (main_loop_passes (length (operations st)) fuel (put_current_step 0 st1))
    as (st' & Hloop & Hend & Hops & Hsec & Hst & Herr' & Hcon' & Hmem');
    [done|simpl; rewrite Hcf; exact Hopen|done
    |simpl; rewrite Hlen; unfold st0; simpl; lia| |].
  { intros pos Hpos. simpl in Hpos. rewrite Hlen in Hpos.
    apply (Hpass pos). unfold st0 in Hpos. simpl in Hpos. lia. }
  exists st'. split.
  { unfold start, link. unfold_m.
    change (operations (put_current_step 0 st)) with (operations st).
    fold st0. by rewrite Hrun. }
  simpl in Hend, Hops, Hsec, Hst, Herr', Hcon', Hmem'.
  unfold st0 in Hlen, Hsts, Herr, Hcon, Hmem. simpl in Hlen, Hsts, Herr, Hcon, Hmem.
  split; [lia|]. split; [by rewrite Hops|]. split.
  { intros pos label more Htext.
    destruct (Hdecl pos label) as (_ & last & Hle & (_ & Hlast & _) & Hs).
    - split; [lia|]. split; [by exists more|apply Hidle].
    - exists last. split; [done|]. split; [done|]. by rewrite Hsec. }
  repeat split; congruence.
Qed.

Lemma labels_only_program_runs_witness :
  ∃ st',
    @start idle_helpers 3 labels_only = Ok true st' ∧
    current_step st' = 3 ∧
    sections st' !! "top" = Some 1 ∧
    sections st' !! "end" = Some 3 ∧
    runtime_error st' = None ∧ console st' = [] ∧ states st' = [].
Proof.
  destruct (@labels_only_program_runs idle_helpers 3 labels_only)
    as (st' & Hrun & Hpc & _ & Hlabels & Herr & Hcon & Hstates & _).
  - unfold ops_allocated. simpl. repeat constructor.
  - by vm_compute.
  - intros pos cmd a Htext.
    do 3 (destruct pos as [|pos];
          [vm_compute in Htext; inversion Htext; first [by left|by right]|]).
    vm_compute in Htext. discriminate Htext.
  - by vm_compute.
  - exists st'. split; [exact Hrun|]. split; [exact Hpc|].
    assert (∀ pos label more,
              op_text labels_only pos = Some ("section", label :: more) →
              ∃ last, pos = last ∧ sections st' !! label = Some (Z.of_nat last + 1))
      as Hone.
    { intros pos label more Htext.
      destruct (Hlabels pos label more Htext) as (last & Hle & [more' Hlast] & Hs).
      exists last. split; [|exact Hs].
      do 3 (destruct pos as [|pos];
            [do 3 (destruct last as [|last];
                   [first [reflexivity
                          |vm_compute in Htext, Hlast; congruence
                          |lia]|]);
             vm_compute in Hlast; discriminate Hlast|]).
      vm_compute in Htext. discriminate Htext. }
    destruct (Hone 0%nat "top" [] eq_refl) as (? & <- & Htop).
    destruct (Hone 2%nat "end" [] eq_refl) as (? & <- & Hend).
    split; [exact Htop|]. split; [exact Hend|].
    split; [exact Herr|]. split; [exact Hcon|exact Hstates].
Defined.
